(** * git_log2csv: a shallow embedding of [src/git_log2csv.py]

    The script wraps [git log] and [git shortlog]: it runs the command,
    walks over the lines of its output with a cursor, builds one dictionary
    per commit (or per author) and writes the result out.

    Conventions of the embedding.
    - A Python [str] is a [string]; a character is a code point below 256.
      The script needs Python 3 ([subprocess.getoutput], [pandas]), where
      [subprocess.getoutput] returns a [str], or raises when the output of
      the command cannot be decoded, and [subprocess.check_output] returns
      [bytes].
    - A local variable that may be unbound is an [option]; reading it
      unbound raises [UnboundLocalError].
    - A dictionary with computed keys (a commit) is a [gmap string value];
      dictionaries with fixed keys (a file change, an author entry) are
      records.
    - A function that can raise returns a [result]; a function that also
      talks to the outside world (standard output and error, subprocesses,
      the csv file) returns an [io]: the events it caused, in order, and how
      it ended.
    - The cursor [i] over [lines] only moves forward, so the loops carry the
      lines from [i] on: [lines[i]] is the head of that list and reading past
      the end is [IndexError]. *)

From Stdlib Require Import ZArith Ascii String List Lia Bool.
From Stdlib Require Import Strings.Byte.
From Stdlib Require Import Numbers.DecimalString.
From stdpp Require Import gmap strings list.

Import ListNotations.

(** ** Exceptions, results *)

(** The Python exceptions the script can raise. [OutOfFuel] is not one of
    them: it marks a loop of the embedding that was given too little fuel,
    which [git_log_parse_total] rules out. *)
Inductive exn : Type :=
| IndexError
| KeyError (key : string)
| ValueError
| TypeError
| CalledProcessError (returncode : Z)
| UnboundLocalError
| OutOfFuel.

Inductive result (A : Type) : Type :=
| Ok (a : A)
| Err (e : exn).

Arguments Ok {A} a.
Arguments Err {A} e.

#[global] Instance result_ret : MRet result := fun _ a => Ok a.

#[global] Instance result_bind : MBind result := fun _ _ k r =>
  match r with
  | Ok a => k a
  | Err e => Err e
  end.

(** ** Strings, the way the Python built-ins treat them *)

Module Str.

Definition code (c : ascii) : nat := nat_of_ascii c.

Definition tab : ascii := ascii_of_nat 9.
Definition newline : ascii := ascii_of_nat 10.
Definition space : ascii := ascii_of_nat 32.
Definition dquote : ascii := ascii_of_nat 34.
Definition backslash : ascii := ascii_of_nat 92.

Definition between (lo hi n : nat) : bool := Nat.leb lo n && Nat.leb n hi.

(** [str.isdigit] on one character: the decimal digits and, below 256,
    the superscripts two, three and one. *)
Definition isdigit (c : ascii) : bool :=
  let n := code c in
  between 48 57 n || Nat.eqb n 178 || Nat.eqb n 179 || Nat.eqb n 185.

(** The characters [str.strip] removes: [str.isspace]. *)
Definition isspace (c : ascii) : bool :=
  let n := code c in
  between 9 13 n || between 28 32 n || Nat.eqb n 133 || Nat.eqb n 160.

(** The characters [int] skips around a literal: the separators 28 to 31
    are not among them. *)
Definition isspace_int (c : ascii) : bool :=
  let n := code c in
  between 9 13 n || Nat.eqb n 32 || Nat.eqb n 133 || Nat.eqb n 160.

Definition is_empty (s : string) : bool :=
  match s with
  | EmptyString => true
  | String _ _ => false
  end.

Fixpoint chars (s : string) : list ascii :=
  match s with
  | EmptyString => []
  | String c s' => c :: chars s'
  end.

(** [s.startswith(p)] *)
Fixpoint startswith (p s : string) : bool :=
  match p, s with
  | EmptyString, _ => true
  | String a p', String b s' => Ascii.eqb a b && startswith p' s'
  | String _ _, EmptyString => false
  end.

(** [needle in hay] on strings: a substring test. *)
Fixpoint contains (needle hay : string) : bool :=
  startswith needle hay ||
  match hay with
  | EmptyString => false
  | String _ hay' => contains needle hay'
  end.

(** [s.find(c) != -1] for a one-character [c]. *)
Definition has_char (c : ascii) (s : string) : bool :=
  existsb (Ascii.eqb c) (chars s).

(** [s[n:]] *)
Fixpoint drop (n : nat) (s : string) : string :=
  match n, s with
  | O, _ => s
  | S n', String _ s' => drop n' s'
  | S _, EmptyString => EmptyString
  end.

(** [s[:-1]] *)
Fixpoint drop_last (s : string) : string :=
  match s with
  | EmptyString => EmptyString
  | String c s' =>
      match s' with
      | EmptyString => EmptyString
      | String _ _ => String c (drop_last s')
      end
  end.

(** [s.split(sep)] for a one-character separator: never an empty list. *)
Fixpoint split (sep : ascii) (s : string) : list string :=
  match s with
  | EmptyString => [EmptyString]
  | String c s' =>
      if Ascii.eqb c sep then EmptyString :: split sep s'
      else match split sep s' with
           | piece :: pieces => String c piece :: pieces
           | [] => [String c EmptyString]
           end
  end.

(** [sep.join(pieces)] *)
Fixpoint join (sep : string) (pieces : list string) : string :=
  match pieces with
  | [] => EmptyString
  | [p] => p
  | p :: ps => p +:+ sep +:+ join sep ps
  end.

Fixpoint lstrip_with (ws : ascii -> bool) (s : string) : string :=
  match s with
  | EmptyString => EmptyString
  | String c s' => if ws c then lstrip_with ws s' else s
  end.

Fixpoint rstrip_with (ws : ascii -> bool) (s : string) : string :=
  match s with
  | EmptyString => EmptyString
  | String c s' =>
      match rstrip_with ws s' with
      | EmptyString => if ws c then EmptyString else String c EmptyString
      | String _ _ as r => String c r
      end
  end.

(** [s.strip()] *)
Definition strip (s : string) : string := rstrip_with isspace (lstrip_with isspace s).

(** The digits of an [int] literal: decimal digits, single underscores
    between them. [seen] tells whether the previous character was a digit. *)
Fixpoint int_digits (acc : Z) (seen : bool) (s : string) : option Z :=
  match s with
  | EmptyString => if seen then Some acc else None
  | String c s' =>
      if between 48 57 (code c)
      then int_digits (10 * acc + Z.of_nat (code c - 48)) true s'
      else if Ascii.eqb c "_" then (if seen then int_digits acc false s' else None)
      else None
  end.

(** [sys.get_int_max_str_digits()], at its default. *)
Definition int_max_str_digits : nat := 4300.

(** The number of digit characters of a literal: what the limit counts. *)
Definition digit_count (s : string) : nat :=
  length (List.filter (fun c => between 48 57 (code c)) (chars s)).

(** [int(s)]: surrounding white space, an optional sign, the digits, no
    more of them than the limit allows; [ValueError] otherwise. *)
Definition int (s : string) : result Z :=
  let t := rstrip_with isspace_int (lstrip_with isspace_int s) in
  let parsed :=
    match t with
    | String "+" r => int_digits 0 false r
    | String "-" r => option_map Z.opp (int_digits 0 false r)
    | _ => int_digits 0 false t
    end in
  match parsed with
  | Some z => if Nat.leb (digit_count t) int_max_str_digits then Ok z else Err ValueError
  | None => Err ValueError
  end.

(** [str(z)] for an integer. *)
Definition of_Z (z : Z) : string := NilZero.string_of_int (Z.to_int z).

End Str.

(** ** Data model *)

(** A file-change entry: the dictionary [{'ins': .., 'del': .., 'path': ..}]. *)
Record file_entry : Type := FileEntry {
  ins : string;
  del : string;
  path : string
}.

(** The values a commit dictionary holds. *)
Inductive value : Type :=
| VStr (s : string)
| VList (items : list string)
| VFiles (files : list file_entry).

(** An author entry of shortlog mode: [email] is present only when email
    aggregation is on. *)
Record author_entry : Type := AuthorEntry {
  name : string;
  email : option string;
  count : Z
}.

Definition START_OF_COMMIT : string := "@@@@@@@@@@".

(** ** The commit parser: lines 144 to 194 of [git_log] *)

(** The eight lines read after the marker, [parents] already split. *)
Record header : Type := Header {
  h_sha : string;
  h_name : string;
  h_email : string;
  h_date : string;
  h_date_iso : string;
  h_parents : list string;
  h_tree : string;
  h_subject : string
}.

(** [lines[i]] to [lines[i+7]], then [i += 8]. *)
Definition read_header (rest : list string) : result (header * list string) :=
  match rest with
  | sha :: name :: email :: date :: date_iso :: parents :: tree :: subject :: rest' =>
      Ok (Header sha name email date date_iso (Str.split Str.space parents) tree subject, rest')
  | _ => Err IndexError
  end.

(** The guard of the numstat loop: [lines[i] and (lines[i][0].isdigit() or
    lines[i][0] == '-')]. *)
Definition is_numstat_line (line : string) : bool :=
  match line with
  | EmptyString => false
  | String c _ => Str.isdigit c || Ascii.eqb c "-"
  end.

(** [{'ins': fields[0], 'del': fields[1], 'path': fields[2]}] *)
Definition numstat_entry (line : string) : result file_entry :=
  match Str.split Str.tab line with
  | f0 :: f1 :: f2 :: _ => Ok (FileEntry f0 f1 f2)
  | _ => Err IndexError
  end.

(** The inner [while]: consume numstat lines, return the entries and the
    lines left. *)
Fixpoint read_numstat (rest : list string) : result (list file_entry * list string) :=
  match rest with
  | [] => Ok ([], [])
  | line :: rest' =>
      if is_numstat_line line then
        entry ← numstat_entry line;
        '(files, remaining) ← read_numstat rest';
        Ok (entry :: files, remaining)
      else Ok ([], rest)
  end.

(** Lines 162 to 173: [files = []], then the numstat block unless the
    marker of the next commit follows at once. *)
Definition read_files (rest : list string) : result (list file_entry * list string) :=
  match rest with
  | [] => Err IndexError
  | line :: rest' =>
      if String.eqb line START_OF_COMMIT then Ok ([], rest)
      else read_numstat rest'
  end.

(** [not json_flags or c in json_flags] *)
Definition wanted (json_flags c : string) : bool :=
  Str.is_empty json_flags || Str.contains c json_flags.

(** Lines 175 to 192: the dictionary of one commit. *)
Definition build_commit (json_flags : string) (h : header) (files : list file_entry)
  : gmap string value :=
  let commit : gmap string value := ∅ in
  let commit := if wanted json_flags "h" then <["sha" := VStr (h_sha h)]> commit else commit in
  let commit := if wanted json_flags "a" then <["name" := VStr (h_name h)]> commit else commit in
  let commit := if wanted json_flags "e" then <["email" := VStr (h_email h)]> commit else commit in
  let commit := if wanted json_flags "d"
                then <["date_iso" := VStr (h_date_iso h)]> (<["date" := VStr (h_date h)]> commit)
                else commit in
  let commit := if wanted json_flags "s" then <["subject" := VStr (h_subject h)]> commit else commit in
  let commit := if wanted json_flags "f" then <["files" := VFiles files]> commit else commit in
  let commit := if wanted json_flags "p" then <["parents" := VList (h_parents h)]> commit else commit in
  let commit := if wanted json_flags "t" then <["tree" := VStr (h_tree h)]> commit else commit in
  commit.

(** The outer [while]. One unit of [fuel] per commit block; a block takes at
    least nine lines, so the number of lines is fuel enough. *)
Fixpoint git_log_loop (json_flags : string) (fuel : nat) (rest : list string)
    (commits : list (gmap string value)) : result (list (gmap string value)) :=
  match rest with
  | [] => Ok commits
  | line :: after_marker =>
      if Str.is_empty line then Ok commits
      else
        match fuel with
        | O => Err OutOfFuel
        | S fuel' =>
            '(h, rest1) ← read_header after_marker;
            '(files, rest2) ← read_files rest1;
            git_log_loop json_flags fuel' rest2 (commits ++ [build_commit json_flags h files])
        end
  end.

Definition git_log_parse (json_flags : string) (lines : list string)
  : result (list (gmap string value)) :=
  git_log_loop json_flags (length lines) lines [].

(** ** The outside world *)

(** What [pandas.json_normalize] returns and [DataFrame.to_csv] writes: the
    column names (the header row of the file) and the data rows, one cell
    per column. *)
Record DataFrame : Type := mkDataFrame {
  columns : list string;
  rows : list (list value)
}.

Inductive event : Type :=
| Print (text : string)                       (* print(text) *)
| StderrWrite (text : string)                 (* sys.stderr.write(text) *)
| GetOutput (cmd : string)                    (* subprocess.getoutput(cmd) *)
| CheckOutput (argv : list string)            (* subprocess.check_output(argv) *)
| ToCsv (file : string) (df : DataFrame).     (* df.to_csv(file) *)

Inductive outcome (A : Type) : Type :=
| Return (a : A)
| Raise (e : exn)
| Exit (status : Z).

Arguments Return {A} a.
Arguments Raise {A} e.
Arguments Exit {A} status.

(** The events caused, oldest first, and the way the computation ended. *)
Definition io (A : Type) : Type := (list event * outcome A)%type.

#[global] Instance io_ret : MRet io := fun _ a => ([], Return a).

#[global] Instance io_bind : MBind io := fun _ _ k m =>
  match m with
  | (t, Return a) => let '(t', r) := k a in (t ++ t', r)
  | (t, Raise e) => (t, Raise e)
  | (t, Exit status) => (t, Exit status)
  end.

Definition lift {A} (r : result A) : io A :=
  match r with
  | Ok a => ([], Return a)
  | Err e => ([], Raise e)
  end.

Definition emit (e : event) : io unit := ([e], Return tt).

Definition sys_exit {A} (status : Z) : io A := ([], Exit status).

(** What a call of [subprocess.getoutput] comes to: the text it captured,
    which comes without its final newline, or an exception (the output
    was not valid UTF-8, say), of which the script only uses the message
    [str(e)]. *)
Inductive answer : Type :=
| Output (text : string)
| Raised (message : string).

(** The answers of the subprocesses: for [getoutput] as above, and for
    [check_output] the bytes it captures or the non-zero return code it
    raises on. *)
Record world : Type := mkWorld {
  getoutput : string -> answer;
  check_output : list string -> result (list byte)
}.

Definition run_getoutput (w : world) (cmd : string) : io answer :=
  emit (GetOutput cmd);; mret (getoutput w cmd).

Definition run_check_output (w : world) (argv : list string) : io (list byte) :=
  emit (CheckOutput argv);; lift (check_output w argv).

(** What a subprocess call hands back. *)
Inductive captured : Type :=
| Text (s : string)
| Bytes (b : list byte).

(** [output.split('\n')] with the [str] separator of the source: a [str] is
    split, [bytes] refuse the separator with [TypeError] (a bytes-like
    object is required, not 'str'). *)
Definition split_lines (output : captured) : result (list string) :=
  match output with
  | Text s => Ok (Str.split Str.newline s)
  | Bytes _ => Err TypeError
  end.

(** ** Argument helpers: lines 41 to 76 *)

(** [strings_to_remove] is one prefix or a list of prefixes; an element is
    kept when the inner [for] runs to its [else]. *)
Definition remove_elements (string_list : list string)
    (strings_to_remove : string + list string) : list string :=
  let removals :=
    match strings_to_remove with
    | inl s => [s]
    | inr l => l
    end in
  List.filter (fun el => negb (existsb (fun removal => Str.startswith removal el) removals))
    string_list.

(** [arg[0]] and [arg[1]] are read without a length check. *)
Fixpoint has_flag (all_args : list string) (flag_to_check : string) : result bool :=
  match all_args with
  | [] => Ok false
  | arg :: rest =>
      match arg with
      | EmptyString => Err IndexError
      | String c0 tl =>
          if Ascii.eqb c0 "-" then
            match tl with
            | EmptyString => Err IndexError
            | String c1 _ =>
                if negb (Ascii.eqb c1 "-") && Str.contains flag_to_check arg
                then Ok true
                else has_flag rest flag_to_check
            end
          else has_flag rest flag_to_check
      end
  end.

(** The text [error_message: <quote>c<quote>] and a newline. *)
Definition flag_error (error_message : string) (c : ascii) : string :=
  error_message +:+ ": " +:+
  String Str.dquote (String c (String Str.dquote (String Str.newline EmptyString))).

Fixpoint check_flags_loop (incoming : list ascii) (allowed_flags error_message : string)
    (has_error : bool) : io bool :=
  match incoming with
  | [] => mret has_error
  | incoming_flag :: rest =>
      if Str.contains (String incoming_flag EmptyString) allowed_flags
      then check_flags_loop rest allowed_flags error_message has_error
      else emit (StderrWrite (flag_error error_message incoming_flag));;
           check_flags_loop rest allowed_flags error_message true
  end.

Definition check_flags (incoming_flags allowed_flags error_message : string) : io unit :=
  has_error ← check_flags_loop (Str.chars incoming_flags) allowed_flags error_message false;
  if has_error : bool then sys_exit (-2) else mret tt.

(** ** Shortlog mode: lines 80 to 109 *)

(** The body of the [for line in lines] loop: the entry appended, if any. *)
Definition shortlog_line (email_flag : bool) (line : string) : result (option author_entry) :=
  let line := Str.strip line in
  let fields := Str.split Str.tab line in
  match fields with
  | f0 :: (_ :: _) as rest =>
      count ← Str.int f0;
      let author := Str.join " " rest in
      if email_flag then
        match Str.split "<" author with
        | [f0; f1] =>
            let name := Str.strip f0 in
            let email := Str.drop_last (Str.strip f1) in
            Ok (Some (AuthorEntry name (Some email) count))
        | _ => Ok None
        end
      else Ok (Some (AuthorEntry author None count))
  | _ => Ok None
  end.

Fixpoint shortlog_entries (email_flag : bool) (lines : list string)
    (author_entries : list author_entry) : result (list author_entry) :=
  match lines with
  | [] => Ok author_entries
  | line :: rest =>
      entry ← shortlog_line email_flag line;
      shortlog_entries email_flag rest
        (match entry with
         | Some e => author_entries ++ [e]
         | None => author_entries
         end)
  end.

(** [json.dumps] of a string, with the default [ensure_ascii]. *)
Definition hex_digit (n : nat) : ascii :=
  if Nat.ltb n 10 then ascii_of_nat (48 + n) else ascii_of_nat (87 + n).

Definition json_escape_char (c : ascii) : string :=
  let n := Str.code c in
  let esc (x : ascii) := String Str.backslash (String x EmptyString) in
  if Ascii.eqb c Str.dquote then esc Str.dquote
  else if Ascii.eqb c Str.backslash then esc Str.backslash
  else if Nat.eqb n 10 then esc "n"%char
  else if Nat.eqb n 13 then esc "r"%char
  else if Nat.eqb n 9 then esc "t"%char
  else if Nat.eqb n 8 then esc "b"%char
  else if Nat.eqb n 12 then esc "f"%char
  else if Str.between 32 126 n then String c EmptyString
  else String Str.backslash
         (String "u" (String "0" (String "0"
           (String (hex_digit (n / 16)) (String (hex_digit (n mod 16)) EmptyString))))).

Fixpoint json_escape (s : string) : string :=
  match s with
  | EmptyString => EmptyString
  | String c s' => json_escape_char c +:+ json_escape s'
  end.

Definition json_string (s : string) : string :=
  String Str.dquote (json_escape s) +:+ String Str.dquote EmptyString.

Definition json_member (key value : string) : string :=
  json_string key +:+ ": " +:+ value.

Definition json_author (e : author_entry) : string :=
  "{" +:+
  Str.join ", "
    ([json_member "name" (json_string (name e))] ++
     match email e with
     | Some m => [json_member "email" (json_string m)]
     | None => []
     end ++
     [json_member "count" (Str.of_Z (count e))]) +:+
  "}".

(** [json.dumps(author_entries)] *)
Definition json_dumps (author_entries : list author_entry) : string :=
  "[" +:+ Str.join ", " (map json_author author_entries) +:+ "]".

(** Lines 88 to 108: the entries built from the lines. *)
Definition author_summary (summary_flag email_flag : bool) (lines : list string)
  : result (list author_entry) :=
  if summary_flag then shortlog_entries email_flag lines [] else Ok [].

Definition git_shortlog (w : world) (args : list string) (json_flags : string) : io unit :=
  summary_flag ← lift (has_flag args "s");
  numbered_flag ← lift (has_flag args "n");
  email_flag ← lift (has_flag args "e");
  output ← run_check_output w ("git" :: args);
  lines ← lift (split_lines (Bytes output));
  author_entries ← lift (author_summary summary_flag email_flag lines);
  emit (Print (json_dumps author_entries)).

(** ** Tabular output: lines 197 to 199 *)

Definition pull_field (obj : gmap string value) (key : string) : result value :=
  match obj !! key with
  | Some v => Ok v
  | None => Err (KeyError key)
  end.

Definition pull_records (obj : gmap string value) (key : string) : result (list file_entry) :=
  v ← pull_field obj key;
  match v with
  | VFiles files => Ok files
  | _ => Err TypeError
  end.

Fixpoint traverse {A B} (f : A -> result B) (l : list A) : result (list B) :=
  match l with
  | [] => Ok []
  | a :: l' =>
      b ← f a;
      bs ← traverse f l';
      Ok (b :: bs)
  end.

(** The rows one commit contributes: one per record under [record_path],
    its own cells first, the meta values of the commit after them; a commit
    whose list of records is empty contributes no row, though its meta keys
    are still looked up. *)
Definition normalize_one (record_path : string) (meta : list string)
    (obj : gmap string value) : result (list (list value)) :=
  recs ← pull_records obj record_path;
  meta_vals ← traverse (pull_field obj) meta;
  Ok (map (fun r => [VStr (ins r); VStr (del r); VStr (path r)] ++ meta_vals) recs).

(** [pd.json_normalize(data, record_path=[record_path], meta=meta)]: an
    empty frame for an empty list; otherwise the records of every element
    in order, [KeyError] at the first element that lacks the record path or
    a meta key. *)
Definition json_normalize (data : list (gmap string value)) (record_path : string)
    (meta : list string) : result DataFrame :=
  match data with
  | [] => Ok (mkDataFrame [] [])
  | _ :: _ =>
      per_commit ← traverse (normalize_one record_path meta) data;
      let records := concat per_commit in
      let record_columns :=
        match records with
        | [] => []
        | _ :: _ => ["ins"; "del"; "path"]
        end in
      Ok (mkDataFrame (record_columns ++ meta) records)
  end.

Definition to_csv (df : DataFrame) (file : string) : io unit := emit (ToCsv file df).

(** ** Log mode: lines 113 to 199 *)

Definition FORMATTING_ARGUMENTS : list string :=
  ["--oneline"; "--pretty"; "--parents"; "--children"; "--graph"; "--notes"; "--show_notes"].

Definition PRETTY_FIELDS : string := "%n%h%n%aN%n%aE%n%at%n%ai%n%p%n%t%n%s".

(** Lines 122 to 130: the argument list [git_log] composes. *)
Definition git_log_args (args : list string) : list string :=
  remove_elements args (inr FORMATTING_ARGUMENTS) ++
  ["--pretty=tformat:" +:+ START_OF_COMMIT +:+ PRETTY_FIELDS; "--date=local"; "--numstat"].

(** Line 136: the command line handed to [subprocess.getoutput]. *)
Definition GIT_LOG_COMMAND : string :=
  "git log --pretty=tformat:@@@@@@@@@@%n%h%n%aN%n%aE%n%at%n%ai%n%p%n%t%n%s --date=local --numstat".

Definition REQUIRED_META : list string := ["name"; "date_iso"; "subject"; "sha"].

(** Lines 132 to 142: [output] is bound only when [getoutput] returns;
    when it raises, the [except] branch prints the exception and the run
    goes on to read [output] unbound. *)
Definition read_output (output : option string) : result (list string) :=
  match output with
  | Some text => split_lines (Text text)
  | None => Err UnboundLocalError
  end.

(** The argument list of lines 122 to 130 is composed and then left
    unused. *)
Definition git_log (w : world) (args : list string) (json_flags : string) : io unit :=
  check_flags json_flags "aehdsfpt" "Unrecognized flag";;
  let args := git_log_args args in
  captured ← run_getoutput w GIT_LOG_COMMAND;
  output ← match captured with
           | Output text => mret (Some text)
           | Raised message => emit (Print message);; mret None
           end;
  lines ← lift (read_output output);
  commits ← lift (git_log_parse json_flags lines);
  df ← lift (json_normalize commits "files" REQUIRED_META);
  to_csv df "log.csv".

(** ** The entry point: lines 202 to 239 *)

Definition USAGE : string := "
 Usage:
    gitjson [standard git options] <git-command> [--json=<flags>]
            [standard git command options]

 git-command must be 'log' or 'shortlog'.

 For 'log' command:
     You can restrict the fields to include in the JSON response with
     '--json=flags'.  The following flags are supported:

        a : author name
        e : author email
        h : sha
        d : date
        s : subject/title
        f : file list
        p : list of parent hashes
        t : tree hash
".

Definition usage : io unit := emit (Print USAGE).

(** The [for] loop that looks for the git command name: the first argument
    without a leading dash and without an equal sign. *)
Fixpoint find_command (args : list string) (command : string) : io string :=
  match args with
  | [] => mret command
  | arg :: rest =>
      if negb (Str.startswith "-" arg) && negb (Str.has_char "=" arg) then
        if negb (String.eqb arg "log") && negb (String.eqb arg "shortlog")
        then emit (StderrWrite ("Only " +:+ String Str.dquote "log" +:+ String Str.dquote " and "
                                +:+ String Str.dquote "shortlog" +:+ String Str.dquote " are supported"
                                +:+ String Str.newline EmptyString));;
             sys_exit (-1)
        else mret arg
      else find_command rest command
  end.

(** The [for] loop that looks for [--json=xyz]: the last one wins. *)
Fixpoint find_json_flags (args : list string) (json_flags : string) : string :=
  match args with
  | [] => json_flags
  | arg :: rest =>
      find_json_flags rest (if Str.startswith "--json=" arg then Str.drop 7 arg else json_flags)
  end.

Definition main (w : world) (argv : list string) : io unit :=
  let args := argv in
  if Nat.ltb 1 (length argv) && String.eqb (nth 1 argv EmptyString) "--help"
  then usage;; sys_exit 0
  else
    command ← find_command (tail args) "log";
    let json_flags := find_json_flags (tail args) "" in
    let args := remove_elements args (inl "--json=") in
    if Str.is_empty command
    then emit (StderrWrite ("Git command must be specified (2nd parameter)"
                            +:+ String Str.newline EmptyString));;
         sys_exit (-2)
    else if String.eqb command "log" then git_log w (tail args) json_flags
    else if String.eqb command "shortlog" then git_shortlog w (tail args) json_flags
    else mret tt.

(** ** Well-formed streams: the template of the forced [--pretty] format *)

(** One record block as git prints it: the marker, the eight header lines
    and, when the commit touches files, a blank line and the numstat lines. *)
Record block : Type := Block {
  b_sha : string;
  b_name : string;
  b_email : string;
  b_date : string;
  b_date_iso : string;
  b_parents : string;
  b_tree : string;
  b_subject : string;
  b_numstat : option (list string)
}.

Definition header_lines (b : block) : list string :=
  [b_sha b; b_name b; b_email b; b_date b; b_date_iso b; b_parents b; b_tree b; b_subject b].

Definition block_lines (b : block) : list string :=
  START_OF_COMMIT :: header_lines b ++
  match b_numstat b with
  | None => []
  | Some numstat => EmptyString :: numstat
  end.

(** The lines of a whole log: every line of the text ends in a newline, so
    splitting leaves an empty string after the last block. *)
Definition stream_lines (blocks : list block) : list string :=
  flat_map block_lines blocks ++ [EmptyString].

(** The text git prints for a list of lines: every line ends in a newline. *)
Fixpoint unlines (lines : list string) : string :=
  match lines with
  | [] => EmptyString
  | line :: lines' => line +:+ String Str.newline (unlines lines')
  end.

Definition newline_free (line : string) : bool := negb (Str.has_char Str.newline line).

(** A numstat line of the template: it starts like one and has its three
    tab-separated fields. *)
Definition numstat_ok (line : string) : bool :=
  is_numstat_line line && Nat.leb 3 (length (Str.split Str.tab line)).

Definition well_formed_block (b : block) : bool :=
  match b_numstat b with
  | None => true
  | Some numstat => forallb numstat_ok numstat
  end.

(** No header line is the marker itself. *)
Definition header_clean (b : block) : bool :=
  forallb (fun line => negb (String.eqb line START_OF_COMMIT)) (header_lines b).

Definition marker_count (lines : list string) : nat :=
  length (List.filter (String.eqb START_OF_COMMIT) lines).

Definition entry_of_line (line : string) : file_entry :=
  let fields := Str.split Str.tab line in
  FileEntry (nth 0 fields EmptyString) (nth 1 fields EmptyString) (nth 2 fields EmptyString).

Definition block_header (b : block) : header :=
  Header (b_sha b) (b_name b) (b_email b) (b_date b) (b_date_iso b)
         (Str.split Str.space (b_parents b)) (b_tree b) (b_subject b).

Definition block_files (b : block) : list file_entry :=
  match b_numstat b with
  | None => []
  | Some numstat => map entry_of_line numstat
  end.

(** The record the template promises for a block. *)
Definition block_commit (json_flags : string) (b : block) : gmap string value :=
  build_commit json_flags (block_header b) (block_files b).

(** Where a block may end: at the end of the text or at the next marker. *)
Definition boundary (rest : list string) : Prop :=
  rest = [EmptyString] \/ exists rest', rest = START_OF_COMMIT :: rest'.

(** The longest run of numstat lines at the front, and what follows it. *)
Fixpoint numstat_run (lines : list string) : list string :=
  match lines with
  | [] => []
  | line :: lines' => if is_numstat_line line then line :: numstat_run lines' else []
  end.

Fixpoint after_numstat_run (lines : list string) : list string :=
  match lines with
  | [] => []
  | line :: lines' => if is_numstat_line line then after_numstat_run lines' else lines
  end.

(** ** The field filter, as the usage text describes it *)

(** The key of each output field and the one-character code that selects
    it: [d] stands for both dates. *)
Definition FIELD_CODES : list (string * ascii) :=
  [("name", "a"%char); ("email", "e"%char); ("sha", "h"%char); ("date", "d"%char);
   ("date_iso", "d"%char); ("subject", "s"%char); ("files", "f"%char);
   ("parents", "p"%char); ("tree", "t"%char)].

(** Every field of a parsed commit with its value. *)
Definition all_fields (h : header) (files : list file_entry) : list (string * value) :=
  [("sha", VStr (h_sha h)); ("name", VStr (h_name h)); ("email", VStr (h_email h));
   ("date", VStr (h_date h)); ("date_iso", VStr (h_date_iso h));
   ("subject", VStr (h_subject h)); ("files", VFiles files);
   ("parents", VList (h_parents h)); ("tree", VStr (h_tree h))].

Fixpoint assoc {V} (key : string) (l : list (string * V)) : option V :=
  match l with
  | [] => None
  | (k, v) :: l' => if String.eqb key k then Some v else assoc key l'
  end.

(** ** Reading a run *)

Definition ALLOWED_FLAGS : string := "aehdsfpt".

(** The characters of a filter string that are not field codes, in order. *)
Definition unrecognized (json_flags : string) : list ascii :=
  List.filter (fun c => negb (Str.has_char c ALLOWED_FLAGS)) (Str.chars json_flags).

Definition recognized (json_flags : string) : bool :=
  forallb (fun c => Str.has_char c ALLOWED_FLAGS) (Str.chars json_flags).

(** The subprocesses started during a run. *)
Definition is_subprocess (e : event) : bool :=
  match e with
  | GetOutput _ | CheckOutput _ => true
  | _ => false
  end.

(** The lines printed during a run. *)
Definition is_print (e : event) : bool :=
  match e with
  | Print _ => true
  | _ => false
  end.

(** The tables written during a run. *)
Fixpoint written_tables (trace : list event) : list DataFrame :=
  match trace with
  | [] => []
  | ToCsv _ df :: trace' => df :: written_tables trace'
  | _ :: trace' => written_tables trace'
  end.

Definition TABLE_COLUMNS : list string :=
  ["ins"; "del"; "path"; "name"; "date_iso"; "subject"; "sha"].

(** The codes the tabular output cannot do without, with the key each one
    stands for in [json_normalize]: the record path first, then the meta
    keys in order. *)
Definition REQUIRED_CODES : list (ascii * string) :=
  [("f"%char, "files"); ("a"%char, "name"); ("d"%char, "date_iso");
   ("s"%char, "subject"); ("h"%char, "sha")].

(** The rows of one parsed commit: one per file change, the cells of the
    change followed by the name, ISO date, subject and sha of the commit. *)
Definition commit_rows (h : header) (files : list file_entry) : list (list value) :=
  map (fun f => [VStr (ins f); VStr (del f); VStr (path f);
                 VStr (h_name h); VStr (h_date_iso h); VStr (h_subject h); VStr (h_sha h)])
      files.

(** The rows a block of the stream contributes to the table. *)
Definition block_rows (b : block) : list (list value) :=
  commit_rows (block_header b) (block_files b).

(** The filter keeps every field the table is made of. *)
Definition keeps_required (json_flags : string) : bool :=
  forallb (fun p => wanted json_flags (String (fst p) EmptyString)) REQUIRED_CODES.

(** ** Sample runs *)

Definition numstat_line (ins del path : string) : string :=
  ins +:+ String Str.tab (del +:+ String Str.tab path).

(** A merge commit without file changes, and an older commit that changes
    two files, one of them binary. *)
Definition merge_block : block :=
  Block "def5678" "Bob" "b@example.com" "1400000600" "2014-05-13 19:10:00 +0200"
        "abc1234 0a1b2c3" "666aaaa" "Merge branch topic" None.

Definition change_block : block :=
  Block "abc1234" "Alice" "a@example.com" "1400000000" "2014-05-13 19:00:00 +0200"
        "" "777aaaa" "Add things"
        (Some [numstat_line "3" "1" "foo.txt"; numstat_line "-" "-" "bin.dat"]).

(** The text [getoutput] hands back for a log of these two commits: the
    lines joined by newlines, the final newline already stripped. *)
Definition two_commit_text : string :=
  Str.join (String Str.newline EmptyString) (flat_map block_lines [merge_block; change_block]).

Definition no_check_output (argv : list string) : result (list byte) :=
  Err (CalledProcessError 128).

Definition two_commit_world : world :=
  mkWorld (fun _ => Output two_commit_text) no_check_output.

(** A log without any commit. *)
Definition empty_world : world := mkWorld (fun _ => Output EmptyString) no_check_output.

(** ** Flags of shortlog mode *)

(** A single-dash flag: a dash followed by a character that is not a dash. *)
Definition single_dash_flag (arg : string) : bool :=
  match arg with
  | String "-" (String c _) => negb (Ascii.eqb c "-")
  | _ => false
  end.

(** An argument [has_flag] can look at: not empty and not a lone dash. *)
Definition scannable (arg : string) : bool :=
  match arg with
  | EmptyString => false
  | String "-" EmptyString => false
  | _ => true
  end.

(** The sample line of a summary with e-mail addresses. *)
Definition alice_line : string :=
  "  5" +:+ String Str.tab "Alice <a@example.com>".

(** A world in which [git shortlog] prints the sample line. *)
Definition shortlog_world : world :=
  mkWorld (fun _ => Output EmptyString)
          (fun _ => Ok (list_byte_of_string (alice_line +:+ String Str.newline EmptyString))).

(** The lines after the header block of [change_block], up to the marker of
    an older commit. *)
Definition sample_numstat_rest : list string :=
  [numstat_line "3" "1" "foo.txt"; numstat_line "-" "-" "bin.dat"; START_OF_COMMIT; "0a1b2c3"].

(** ** Readings used by the further properties *)


(** An argument [has_flag] passes over: it can be scanned and is not a
    single-dash flag that contains the flag. *)
Definition passed_over (flag_to_check arg : string) : bool :=
  scannable arg && negb (single_dash_flag arg && Str.contains flag_to_check arg).

(** The characters of [incoming_flags] that do not occur in
    [allowed_flags], in order and with repeats. *)
Definition offending (incoming_flags allowed_flags : string) : list ascii :=
  List.filter (fun c => negb (Str.has_char c allowed_flags)) (Str.chars incoming_flags).

(** The test of the entry point for the git command name: no leading dash
    and no equal sign. *)
Definition is_command_word (arg : string) : bool :=
  negb (Str.startswith "-" arg) && negb (Str.has_char "=" arg).

(** The first argument that passes the test, if any. *)
Definition command_word (args : list string) : option string :=
  List.find is_command_word args.

Definition UNSUPPORTED_COMMAND : string :=
  "Only " +:+ String Str.dquote "log" +:+ String Str.dquote " and "
  +:+ String Str.dquote "shortlog" +:+ String Str.dquote " are supported"
  +:+ String Str.newline EmptyString.

Definition MISSING_COMMAND : string :=
  "Git command must be specified (2nd parameter)" +:+ String Str.newline EmptyString.

Definition is_json_flag (arg : string) : bool := Str.startswith "--json=" arg.

(** [sys.argv[1] == '--help'], guarded by the length test. *)
Definition asks_for_help (argv : list string) : bool :=
  Nat.ltb 1 (length argv) && String.eqb (nth 1 argv EmptyString) "--help".

(** The exception a run of [check_output] on bytes ends with: its own, or
    the [TypeError] of the split. *)
Definition shortlog_exception (w : world) (args : list string) : exn :=
  match check_output w ("git" :: args) with
  | Ok _ => TypeError
  | Err e => e
  end.

(** A world whose git fails in shortlog mode with return code 128. *)
Definition failing_world : world := mkWorld (fun _ => Output EmptyString) no_check_output.
(** The outer loop of [git_log] without the dictionary step: the header
    and the file list of each record it reads. *)
Fixpoint git_log_records (fuel : nat) (rest : list string)
  : result (list (header * list file_entry)) :=
  match rest with
  | [] => Ok []
  | line :: after_marker =>
      if Str.is_empty line then Ok []
      else
        match fuel with
        | O => Err OutOfFuel
        | S fuel' =>
            '(h, rest1) ← read_header after_marker;
            '(files, rest2) ← read_files rest1;
            records ← git_log_records fuel' rest2;
            Ok ((h, files) :: records)
        end
  end.

(** The dictionary of a record under a filter. *)
Definition record_commit (json_flags : string) (record : header * list file_entry)
  : gmap string value :=
  build_commit json_flags (fst record) (snd record).

(** The entry point runs log mode: no command word, or the word [log]. *)
Definition log_mode (argv : list string) : bool :=
  match command_word (tail argv) with
  | None => true
  | Some arg => String.eqb arg "log"
  end.
(** The separator of [getoutput]'s lines. *)
Definition NEWLINE : string := String Str.newline EmptyString.

(** The first key of the table that the filter leaves out of the records,
    in the order [json_normalize] asks for them. *)
Definition first_missing (json_flags : string) : option string :=
  option_map snd
    (List.find (fun p => negb (wanted json_flags (String (fst p) EmptyString))) REQUIRED_CODES).

(** The rows of parsed records and the frame [json_normalize] makes of
    them when no key is missing. *)
Definition record_rows (records : list (header * list file_entry)) : list (list value) :=
  flat_map (fun record => commit_rows (fst record) (snd record)) records.

Definition records_frame (records : list (header * list file_entry)) : DataFrame :=
  match records with
  | [] => mkDataFrame [] []
  | _ :: _ =>
      mkDataFrame (match record_rows records with
                   | [] => []
                   | _ :: _ => ["ins"; "del"; "path"]
                   end ++ REQUIRED_META)
                  (record_rows records)
  end.

(** A log whose oldest commit changes no file, as [getoutput] hands it
    back: without the final newline. *)
Definition stripped_world : world :=
  mkWorld
    (fun _ => Output (Str.join NEWLINE (flat_map block_lines [change_block; merge_block])))
    no_check_output.

(** A repository whose log is not valid UTF-8: [getoutput] raises, and
    this is the message of its exception. *)
Definition DECODE_MESSAGE : string :=
  "'utf-8' codec can't decode byte 0xe9 in position 41: invalid continuation byte".

Definition undecodable_world : world := mkWorld (fun _ => Raised DECODE_MESSAGE) no_check_output.

(** The shapes a run of the entry point can have in a world. *)
Inductive main_shape (w : world) : io unit -> Prop :=
| shape_help : main_shape w ([Print USAGE], Exit 0)
| shape_unsupported : main_shape w ([StderrWrite UNSUPPORTED_COMMAND], Exit (-1))
| shape_flags (flags : list ascii) :
    main_shape w
      (map (fun c => StderrWrite (flag_error "Unrecognized flag" c)) flags, Exit (-2))
| shape_unbound (message : string) :
    getoutput w GIT_LOG_COMMAND = Raised message ->
    main_shape w ([GetOutput GIT_LOG_COMMAND; Print message], Raise UnboundLocalError)
| shape_log_raises (e : exn) : main_shape w ([GetOutput GIT_LOG_COMMAND], Raise e)
| shape_table (df : DataFrame) :
    main_shape w ([GetOutput GIT_LOG_COMMAND; ToCsv "log.csv" df], Return tt)
| shape_scan_raises (e : exn) : main_shape w ([], Raise e)
| shape_shortlog_raises (argv : list string) (e : exn) :
    main_shape w ([CheckOutput argv], Raise e).



(** The values the parsed records hold under one key. *)
Definition field_of (key : string) (parsed : result (list (gmap string value)))
  : result (list (option value)) :=
  commits ← parsed;
  Ok (map (fun commit => commit !! key) commits).

(** Two commits as git prints them, the one without file changes first,
    with the word [commit] where the marker of the second should be. *)
Definition unmarked_lines : list string :=
  block_lines merge_block ++ "commit" :: tail (block_lines change_block).

(** * Properties *)

(** ** Strings *)

Lemma split_no_sep sep s : Str.has_char sep s = false -> Str.split sep s = [s].
Proof.
  unfold Str.has_char. induction s as [|c s IH]; [reflexivity|].
  cbn [Str.chars existsb Str.split]. intros H. apply orb_false_elim in H as [H1 H2].
  rewrite Ascii.eqb_sym, H1, (IH H2). reflexivity.
Qed.

Lemma append_empty s : EmptyString +:+ s = s.
Proof. reflexivity. Qed.

Lemma append_cons c a b : String c a +:+ b = String c (a +:+ b).
Proof. reflexivity. Qed.

Lemma split_app_sep sep a b :
  Str.has_char sep a = false ->
  Str.split sep (a +:+ String sep b) = a :: Str.split sep b.
Proof.
  unfold Str.has_char. induction a as [|c a IH].
  - intros _. rewrite append_empty. cbn [Str.split]. rewrite Ascii.eqb_refl. reflexivity.
  - cbn [Str.chars existsb]. intros H. apply orb_false_elim in H as [H1 H2].
    rewrite append_cons. cbn [Str.split]. rewrite Ascii.eqb_sym, H1, (IH H2). reflexivity.
Qed.

Lemma split_not_nil sep s : Str.split sep s <> [].
Proof.
  destruct s as [|c s]; [discriminate|]. cbn [Str.split].
  destruct (Ascii.eqb c sep); [discriminate|]. destruct (Str.split sep s); discriminate.
Qed.

Lemma drop_last_app s c : Str.drop_last (s +:+ String c EmptyString) = s.
Proof.
  induction s as [|a s IH]; [reflexivity|].
  rewrite append_cons. cbn [Str.drop_last]. rewrite IH.
  destruct s; reflexivity.
Qed.

(** ** The field filter *)

Lemma contains_char c s : Str.contains (String c EmptyString) s = Str.has_char c s.
Proof.
  unfold Str.has_char. induction s as [|b s IH]; [reflexivity|].
  cbn [Str.contains Str.startswith Str.chars existsb].
  rewrite IH. destruct s; rewrite andb_true_r; reflexivity.
Qed.

Lemma has_char_In c s : Str.has_char c s = true <-> In c (Str.chars s).
Proof.
  unfold Str.has_char. rewrite existsb_exists. split.
  - intros (x & Hx & E). apply Ascii.eqb_eq in E. subst. assumption.
  - intros H. exists c. split; [assumption|apply Ascii.eqb_refl].
Qed.

Lemma chars_nil s : Str.chars s = [] <-> s = EmptyString.
Proof. destruct s; simpl; split; congruence. Qed.

Lemma wanted_spec json_flags c :
  wanted json_flags (String c EmptyString) = true <->
  json_flags = EmptyString \/ In c (Str.chars json_flags).
Proof.
  unfold wanted. rewrite orb_true_iff, contains_char, has_char_In.
  destruct json_flags; simpl; intuition congruence.
Qed.

Lemma lookup_if_insert (b : bool) (k : string) (v : value) (m : gmap string value) (j : string) :
  (if b then <[k:=v]> m else m) !! j = if b && String.eqb j k then Some v else m !! j.
Proof.
  destruct b; [|reflexivity]. cbn [andb].
  destruct (String.eqb_spec j k) as [->|Hne].
  - apply lookup_insert_eq.
  - apply lookup_insert_ne. congruence.
Qed.

Lemma lookup_if_insert2 (b : bool) (k1 k2 : string) (v1 v2 : value) (m : gmap string value)
    (j : string) :
  (if b then <[k1:=v1]> (<[k2:=v2]> m) else m) !! j =
  if b && String.eqb j k1 then Some v1
  else if b && String.eqb j k2 then Some v2 else m !! j.
Proof.
  destruct b; [|reflexivity]. cbn [andb].
  destruct (String.eqb_spec j k1) as [->|Hne1]; [apply lookup_insert_eq|].
  rewrite lookup_insert_ne by congruence.
  destruct (String.eqb_spec j k2) as [->|Hne2]; [apply lookup_insert_eq|].
  apply lookup_insert_ne. congruence.
Qed.

Section Filter.

Variable h : header.
Variable files : list file_entry.

(** What a commit dictionary holds under a key: the parsed value when the
    key is a field whose code is wanted, nothing otherwise. *)
Lemma build_commit_lookup json_flags key :
  build_commit json_flags h files !! key =
  match assoc key FIELD_CODES with
  | Some c => if wanted json_flags (String c EmptyString)
              then assoc key (all_fields h files) else None
  | None => None
  end.
Proof.
  unfold build_commit.
  rewrite !lookup_if_insert, lookup_if_insert2, !lookup_if_insert, lookup_empty.
  cbn [assoc FIELD_CODES all_fields].
  repeat match goal with
         | |- context [String.eqb key ?k] =>
             destruct (String.eqb_spec key k) as [->|?];
             [cbn -[wanted]; rewrite ?andb_true_r, ?andb_false_r; reflexivity|]
         end.
  rewrite !andb_false_r. reflexivity.
Qed.

Lemma wanted_same_chars json_flags json_flags' c :
  (forall x, In x (Str.chars json_flags) <-> In x (Str.chars json_flags')) ->
  wanted json_flags (String c EmptyString) = wanted json_flags' (String c EmptyString).
Proof.
  intros Hsame. apply eq_true_iff_eq. rewrite !wanted_spec.
  assert (json_flags = EmptyString <-> json_flags' = EmptyString) as Hempty.
  { rewrite <- !chars_nil. split; intros E.
    - destruct (Str.chars json_flags') as [|x l] eqn:E'; [reflexivity|].
      assert (In x (Str.chars json_flags)) as Hin by (apply Hsame; left; reflexivity).
      rewrite E in Hin. destruct Hin.
    - destruct (Str.chars json_flags) as [|x l] eqn:E'; [reflexivity|].
      assert (In x (Str.chars json_flags')) as Hin by (apply Hsame; left; reflexivity).
      rewrite E in Hin. destruct Hin. }
  rewrite Hempty, Hsame. reflexivity.
Qed.

Lemma build_commit_same_chars json_flags json_flags' :
  (forall x, In x (Str.chars json_flags) <-> In x (Str.chars json_flags')) ->
  build_commit json_flags h files = build_commit json_flags' h files.
Proof.
  intros Hsame. apply map_eq. intros key. rewrite !build_commit_lookup.
  destruct (assoc key FIELD_CODES) as [c|]; [|reflexivity].
  rewrite (wanted_same_chars _ _ c Hsame). reflexivity.
Qed.

Ltac each_field H :=
  cbn [In FIELD_CODES all_fields] in H;
  repeat (destruct H as [H|H]; [inversion H; subst; clear H|]); [..|destruct H].

(** C3. With an empty filter string the emitted record holds every field
    with its parsed value. With a non-empty one it holds a field exactly
    when the code of the field (a name, e email, h sha, d date and date_iso,
    s subject, f files, p parents, t tree) occurs in the string. A record
    never holds anything but parsed fields, and two filter strings with the
    same characters, such as [as] and [sa], give the same record. *)
Theorem build_commit_filter (json_flags : string) :
  (json_flags = EmptyString ->
   forall key v, In (key, v) (all_fields h files) ->
                 build_commit json_flags h files !! key = Some v) /\
  (json_flags <> EmptyString ->
   forall key c, In (key, c) FIELD_CODES ->
                 (is_Some (build_commit json_flags h files !! key) <->
                  In c (Str.chars json_flags))) /\
  (forall key v, build_commit json_flags h files !! key = Some v ->
                 In (key, v) (all_fields h files)) /\
  (forall json_flags',
     (forall c, In c (Str.chars json_flags) <-> In c (Str.chars json_flags')) ->
     build_commit json_flags h files = build_commit json_flags' h files) /\
  build_commit "as" h files = build_commit "sa" h files.
Proof.
  split; [|split; [|split; [|split]]].
  - intros -> key v Hin. rewrite build_commit_lookup.
    each_field Hin; reflexivity.
  - intros Hne key c Hin. rewrite build_commit_lookup.
    each_field Hin; cbn -[wanted];
      (destruct (wanted json_flags _) eqn:E;
       [apply wanted_spec in E as [E|E]; [contradiction|];
        split; [intros _; exact E|intros _; eexists; reflexivity]
       |split; [intros [x Hx]; discriminate|];
        intros Hc; rewrite (proj2 (wanted_spec json_flags _) (or_intror Hc)) in E;
        discriminate]).
  - intros key v. rewrite build_commit_lookup. cbn [assoc FIELD_CODES all_fields].
    repeat match goal with
           | |- context [String.eqb key ?k] =>
               destruct (String.eqb_spec key k) as [->|?];
               [cbn -[wanted]; destruct (wanted json_flags _); [|discriminate];
                intros E; inversion E; subst; cbn; tauto|]
           end.
    discriminate.
  - intros json_flags' Hsame. apply build_commit_same_chars, Hsame.
  - apply build_commit_same_chars. intros c. simpl. tauto.
Qed.

End Filter.

(** ** The filter check *)

Lemma check_flags_loop_spec incoming error_message has_error :
  check_flags_loop incoming ALLOWED_FLAGS error_message has_error =
  (map (fun c => StderrWrite (flag_error error_message c))
       (List.filter (fun c => negb (Str.has_char c ALLOWED_FLAGS)) incoming),
   Return (has_error ||
           existsb (fun c => negb (Str.has_char c ALLOWED_FLAGS)) incoming)).
Proof.
  revert has_error. induction incoming as [|c incoming IH]; intros has_error.
  - cbn. rewrite orb_false_r. reflexivity.
  - cbn [check_flags_loop List.filter existsb]. rewrite contains_char.
    destruct (Str.has_char c ALLOWED_FLAGS); cbn [negb].
    + apply IH.
    + unfold emit. cbn [mbind io_bind]. rewrite IH. cbn [map app orb].
      rewrite orb_true_r. reflexivity.
Qed.

Lemma existsb_filter_nil {A} (f : A -> bool) l :
  existsb f l = negb (match List.filter f l with [] => true | _ => false end).
Proof.
  induction l as [|x l IH]; [reflexivity|]. simpl. destruct (f x); [reflexivity|exact IH].
Qed.

Lemma check_flags_spec json_flags error_message :
  check_flags json_flags ALLOWED_FLAGS error_message =
  (map (fun c => StderrWrite (flag_error error_message c)) (unrecognized json_flags),
   match unrecognized json_flags with
   | [] => Return tt
   | _ :: _ => Exit (-2)
   end).
Proof.
  unfold check_flags. rewrite check_flags_loop_spec. cbn [orb mbind io_bind].
  rewrite existsb_filter_nil. fold (unrecognized json_flags).
  destruct (unrecognized json_flags); cbn; rewrite ?app_nil_r; reflexivity.
Qed.

Lemma unrecognized_nil json_flags :
  unrecognized json_flags = [] <-> recognized json_flags = true.
Proof.
  unfold unrecognized, recognized. induction (Str.chars json_flags) as [|c l IH]; simpl.
  - tauto.
  - destruct (Str.has_char c ALLOWED_FLAGS); simpl; [exact IH|].
    split; discriminate.
Qed.

Lemma unrecognized_In json_flags c :
  In c (unrecognized json_flags) <->
  In c (Str.chars json_flags) /\ ~ In c (Str.chars ALLOWED_FLAGS).
Proof.
  unfold unrecognized. rewrite List.filter_In, negb_true_iff. split.
  - intros [H1 H2]. split; [assumption|]. intros H3. apply has_char_In in H3. congruence.
  - intros [H1 H2]. split; [assumption|].
    destruct (Str.has_char c ALLOWED_FLAGS) eqn:E; [|reflexivity].
    exfalso. apply H2, has_char_In, E.
Qed.

(** C6. When the filter string has a character outside [aehdsfpt], the log
    invocation writes one diagnostic per such character to standard error
    and exits with status -2; nothing else happens: no subprocess is
    started, nothing is parsed and no table is written. *)
Theorem git_log_unrecognized_flag (w : world) (args : list string) (json_flags : string) :
  (exists c, In c (Str.chars json_flags) /\ ~ In c (Str.chars "aehdsfpt")) ->
  exists status,
    git_log w args json_flags =
      (map (fun c => StderrWrite (flag_error "Unrecognized flag" c)) (unrecognized json_flags),
       Exit status) /\
    status = (-2)%Z /\
    status <> 0%Z /\
    unrecognized json_flags <> [] /\
    List.filter is_subprocess (fst (git_log w args json_flags)) = [] /\
    written_tables (fst (git_log w args json_flags)) = [].
Proof.
  intros (c & Hin & Hbad).
  assert (In c (unrecognized json_flags)) as Hc by (apply unrecognized_In; auto).
  assert (git_log w args json_flags =
          (map (fun c => StderrWrite (flag_error "Unrecognized flag" c)) (unrecognized json_flags),
           Exit (-2)%Z)) as E.
  { unfold git_log. fold ALLOWED_FLAGS. rewrite check_flags_spec.
    destruct (unrecognized json_flags); [destruct Hc|reflexivity]. }
  exists (-2)%Z. rewrite E. cbn [fst].
  split; [reflexivity|]. split; [reflexivity|]. split; [lia|].
  split; [intros E'; rewrite E' in Hc; destruct Hc|].
  clear. split; induction (unrecognized json_flags); cbn; auto.
Qed.

(** Once the filter check has passed, a run of [git_log] is the fixed
    command line, the parse of its output and the table. *)
Lemma git_log_run w args json_flags :
  recognized json_flags = true ->
  git_log w args json_flags =
  match getoutput w GIT_LOG_COMMAND with
  | Output output =>
      match git_log_parse json_flags (Str.split Str.newline output) with
      | Ok commits =>
          match json_normalize commits "files" REQUIRED_META with
          | Ok df => ([GetOutput GIT_LOG_COMMAND; ToCsv "log.csv" df], Return tt)
          | Err e => ([GetOutput GIT_LOG_COMMAND], Raise e)
          end
      | Err e => ([GetOutput GIT_LOG_COMMAND], Raise e)
      end
  | Raised message => ([GetOutput GIT_LOG_COMMAND; Print message], Raise UnboundLocalError)
  end.
Proof.
  intros Hrec. apply unrecognized_nil in Hrec.
  unfold git_log. fold ALLOWED_FLAGS. rewrite check_flags_spec, Hrec.
  cbn [map mbind io_bind run_getoutput emit mret io_ret app].
  destruct (getoutput w GIT_LOG_COMMAND) as [output|message]; [|reflexivity].
  cbn [mbind io_bind mret io_ret app read_output split_lines lift].
  destruct (git_log_parse _ _) as [commits|e]; [|reflexivity].
  cbn -[json_normalize].
  destruct (json_normalize _ _ _) as [df|e]; reflexivity.
Qed.

(** ** The parser *)

Lemma numstat_entry_ok line :
  numstat_ok line = true -> numstat_entry line = Ok (entry_of_line line).
Proof.
  unfold numstat_ok, numstat_entry, entry_of_line.
  intros H. apply andb_prop in H as [_ H]. apply Nat.leb_le in H.
  destruct (Str.split Str.tab line) as [|f0 [|f1 [|f2 fs]]]; simpl in *; try lia.
  reflexivity.
Qed.

Lemma numstat_run_split lines : lines = numstat_run lines ++ after_numstat_run lines.
Proof.
  induction lines as [|line lines IH]; simpl; [reflexivity|].
  destruct (is_numstat_line line); simpl; congruence.
Qed.

Lemma read_numstat_run lines :
  forallb numstat_ok (numstat_run lines) = true ->
  read_numstat lines = Ok (map entry_of_line (numstat_run lines), after_numstat_run lines).
Proof.
  induction lines as [|line lines IH]; simpl; [reflexivity|].
  destruct (is_numstat_line line) eqn:E; simpl; [|reflexivity].
  intros H. apply andb_prop in H as [H1 H2].
  rewrite (numstat_entry_ok _ H1). simpl. rewrite (IH H2). reflexivity.
Qed.

Lemma numstat_run_app numstat rest :
  forallb numstat_ok numstat = true ->
  (rest = [] \/ exists line rest', rest = line :: rest' /\ is_numstat_line line = false) ->
  numstat_run (numstat ++ rest) = numstat /\ after_numstat_run (numstat ++ rest) = rest.
Proof.
  intros Hns Hrest. induction numstat as [|line numstat IH]; simpl in *.
  - destruct Hrest as [->|(line & rest' & -> & Hl)]; simpl; [auto|]. rewrite Hl. auto.
  - apply andb_prop in Hns as [H1 H2]. unfold numstat_ok in H1.
    apply andb_prop in H1 as [H1 _]. rewrite H1.
    destruct (IH H2) as [-> ->]. auto.
Qed.

Lemma boundary_stops rest :
  boundary rest ->
  exists line rest', rest = line :: rest' /\ is_numstat_line line = false.
Proof.
  intros [->|[rest' ->]]; eexists _, _; split; reflexivity.
Qed.

Lemma read_numstat_length lines files rest :
  read_numstat lines = Ok (files, rest) -> length rest <= length lines.
Proof.
  revert files rest. induction lines as [|line lines IH]; simpl; intros files rest H.
  - inversion H. simpl. lia.
  - destruct (is_numstat_line line).
    + destruct (numstat_entry line); simpl in H; [|discriminate].
      destruct (read_numstat lines) as [[fs r]|] eqn:E; simpl in H; [|discriminate].
      inversion H; subst. specialize (IH _ _ eq_refl). lia.
    + inversion H; subst. simpl. lia.
Qed.

Lemma read_files_length lines files rest :
  read_files lines = Ok (files, rest) -> length rest <= length lines.
Proof.
  unfold read_files. destruct lines as [|line lines]; [discriminate|].
  destruct (String.eqb line START_OF_COMMIT).
  - intros H. inversion H. lia.
  - intros H. apply read_numstat_length in H. simpl. lia.
Qed.

Lemma read_header_length lines h rest :
  read_header lines = Ok (h, rest) -> length rest + 8 = length lines.
Proof.
  unfold read_header.
  destruct lines as [|l1 [|l2 [|l3 [|l4 [|l5 [|l6 [|l7 [|l8 r]]]]]]]]; try discriminate.
  intros H. inversion H. simpl. lia.
Qed.

(** The fuel [git_log_parse] starts with is never used up: the loop always
    ends with the commits or with a Python exception. *)
Lemma git_log_loop_fuel json_flags fuel rest commits :
  length rest <= fuel -> git_log_loop json_flags fuel rest commits <> Err OutOfFuel.
Proof.
  revert rest commits. induction fuel as [|fuel IH]; intros rest commits Hlen.
  - destruct rest; simpl in *; [discriminate|lia].
  - destruct rest as [|line after]; simpl; [discriminate|].
    destruct (Str.is_empty line); [discriminate|].
    destruct (read_header after) as [[h rest1]|e] eqn:Eh; simpl.
    + destruct (read_files rest1) as [[files rest2]|e] eqn:Ef; simpl.
      * apply IH. apply read_header_length in Eh. apply read_files_length in Ef.
        simpl in Hlen. lia.
      * destruct e; try discriminate.
        unfold read_files in Ef. destruct rest1 as [|l r]; [discriminate|].
        destruct (String.eqb l START_OF_COMMIT); [discriminate|].
        exfalso. clear -Ef. revert Ef. generalize r. clear r.
        induction r as [|x r IHr]; simpl; [discriminate|].
        destruct (is_numstat_line x); [|discriminate].
        unfold numstat_entry.
        destruct (Str.split Str.tab x) as [|f0 [|f1 [|f2 fs]]]; simpl; try discriminate.
        destruct (read_numstat r) as [[a b]|e] eqn:E; simpl; [discriminate|].
        intros H. inversion H; subst. auto.
    + unfold read_header in Eh.
      destruct after as [|l1 [|l2 [|l3 [|l4 [|l5 [|l6 [|l7 [|l8 r]]]]]]]];
        inversion Eh; discriminate.
Qed.

Lemma git_log_parse_total json_flags lines :
  git_log_parse json_flags lines <> Err OutOfFuel.
Proof. apply git_log_loop_fuel. lia. Qed.

Lemma git_log_loop_end json_flags fuel commits :
  git_log_loop json_flags fuel [EmptyString] commits = Ok commits.
Proof. destruct fuel; reflexivity. Qed.

Lemma git_log_loop_nil json_flags fuel commits :
  git_log_loop json_flags fuel [] commits = Ok commits.
Proof. destruct fuel; reflexivity. Qed.

Lemma read_header_block b rest :
  read_header (header_lines b ++ rest) = Ok (block_header b, rest).
Proof. reflexivity. Qed.

Lemma read_files_marker rest :
  read_files (START_OF_COMMIT :: rest) = Ok ([], START_OF_COMMIT :: rest).
Proof. reflexivity. Qed.

Lemma read_files_numstat sep numstat rest :
  String.eqb sep START_OF_COMMIT = false ->
  forallb numstat_ok numstat = true ->
  (rest = [] \/ exists line rest', rest = line :: rest' /\ is_numstat_line line = false) ->
  read_files (sep :: numstat ++ rest) = Ok (map entry_of_line numstat, rest).
Proof.
  intros Hsep Hns Hrest. unfold read_files. rewrite Hsep.
  destruct (numstat_run_app numstat rest Hns Hrest) as [Hrun Hafter].
  rewrite read_numstat_run; rewrite Hrun; [|assumption].
  rewrite Hafter. reflexivity.
Qed.

(** One block, followed by the end of the text or by the next marker, costs
    one round of the loop and appends its record. *)
Lemma git_log_loop_block json_flags fuel b rest commits :
  well_formed_block b = true ->
  boundary rest ->
  git_log_loop json_flags (S fuel) (block_lines b ++ rest) commits =
  git_log_loop json_flags fuel rest (commits ++ [block_commit json_flags b]).
Proof.
  intros Hwf Hb. unfold block_lines, block_commit, block_files, well_formed_block in *.
  cbn [app git_log_loop Str.is_empty START_OF_COMMIT].
  rewrite <- app_assoc, read_header_block. cbn [mbind result_bind].
  destruct (b_numstat b) as [numstat|].
  - cbn [app]. rewrite read_files_numstat; [reflexivity|reflexivity|assumption|].
    right. apply boundary_stops, Hb.
  - cbn [app]. destruct Hb as [->|[rest' ->]].
    + cbn. destruct fuel; reflexivity.
    + rewrite read_files_marker. reflexivity.
Qed.

Lemma boundary_blocks blocks rest :
  boundary rest -> boundary (flat_map block_lines blocks ++ rest).
Proof.
  intros Hb. destruct blocks as [|b blocks]; [exact Hb|].
  right. simpl. unfold block_lines. simpl. eauto.
Qed.

Lemma git_log_loop_blocks json_flags blocks : forall fuel rest commits,
  forallb well_formed_block blocks = true ->
  boundary rest ->
  git_log_loop json_flags (length blocks + fuel) (flat_map block_lines blocks ++ rest) commits =
  git_log_loop json_flags fuel rest (commits ++ map (block_commit json_flags) blocks).
Proof.
  induction blocks as [|b blocks IH]; intros fuel rest commits Hwf Hb.
  - simpl. rewrite app_nil_r. reflexivity.
  - simpl in Hwf. apply andb_prop in Hwf as [Hwf1 Hwf2].
    cbn [flat_map length Nat.add map]. rewrite <- app_assoc.
    rewrite git_log_loop_block; [|assumption|apply boundary_blocks, Hb].
    rewrite IH by assumption. rewrite <- app_assoc. reflexivity.
Qed.

Lemma block_lines_length b : 9 <= length (block_lines b).
Proof. unfold block_lines. simpl. lia. Qed.

Lemma blocks_length blocks : length blocks <= length (flat_map block_lines blocks).
Proof.
  induction blocks as [|b blocks IH]; simpl; [lia|].
  rewrite length_app. pose proof (block_lines_length b). lia.
Qed.

Lemma marker_count_app l1 l2 : marker_count (l1 ++ l2) = marker_count l1 + marker_count l2.
Proof. unfold marker_count. rewrite List.filter_app, length_app. reflexivity. Qed.

Lemma marker_count_cons line lines :
  marker_count (line :: lines) =
  (if String.eqb START_OF_COMMIT line then 1 else 0) + marker_count lines.
Proof.
  unfold marker_count. cbn [List.filter].
  destruct (String.eqb START_OF_COMMIT line); reflexivity.
Qed.

Lemma marker_count_numstat numstat :
  forallb numstat_ok numstat = true -> marker_count numstat = 0.
Proof.
  induction numstat as [|line numstat IH]; [reflexivity|].
  cbn [forallb]. intros H. apply andb_prop in H as [H1 H2]. unfold numstat_ok in H1.
  apply andb_prop in H1 as [H1 _]. rewrite marker_count_cons, (IH H2).
  destruct (String.eqb START_OF_COMMIT line) eqn:E; [|reflexivity].
  apply String.eqb_eq in E. subst line. discriminate.
Qed.

Lemma marker_count_header_lines lines :
  forallb (fun line => negb (String.eqb line START_OF_COMMIT)) lines = true ->
  marker_count lines = 0.
Proof.
  induction lines as [|line lines IH]; [reflexivity|].
  cbn [forallb]. intros H. apply andb_prop in H as [H1 H2].
  rewrite marker_count_cons, (IH H2), String.eqb_sym.
  destruct (String.eqb line START_OF_COMMIT); [discriminate|reflexivity].
Qed.

Lemma marker_count_block b :
  well_formed_block b = true -> header_clean b = true -> marker_count (block_lines b) = 1.
Proof.
  unfold well_formed_block, header_clean, block_lines. intros Hwf Hc.
  rewrite marker_count_cons, marker_count_app, (marker_count_header_lines _ Hc).
  destruct (b_numstat b) as [numstat|]; [|reflexivity].
  rewrite marker_count_cons, (marker_count_numstat _ Hwf). reflexivity.
Qed.

Lemma marker_count_blocks blocks :
  forallb well_formed_block blocks = true ->
  forallb header_clean blocks = true ->
  marker_count (flat_map block_lines blocks) = length blocks.
Proof.
  induction blocks as [|b blocks IH]; [reflexivity|]. cbn [forallb flat_map length].
  intros H1 H2. apply andb_prop in H1 as [? ?]. apply andb_prop in H2 as [? ?].
  rewrite marker_count_app, marker_count_block, IH by assumption. reflexivity.
Qed.

Lemma git_log_parse_stream json_flags blocks :
  forallb well_formed_block blocks = true ->
  git_log_parse json_flags (stream_lines blocks) = Ok (map (block_commit json_flags) blocks).
Proof.
  intros Hwf. unfold git_log_parse, stream_lines.
  pose proof (blocks_length blocks) as Hlen.
  rewrite length_app. cbn [length].
  replace (length (flat_map block_lines blocks) + 1)
    with (length blocks + (length (flat_map block_lines blocks) + 1 - length blocks)) by lia.
  rewrite git_log_loop_blocks; [|assumption|left; reflexivity].
  apply git_log_loop_end.
Qed.

(** The parser on a newline-terminated stream. For a well-formed stream
    (blocks that follow the template, each line ended by a newline) the parser returns exactly one record per
    block, in the order of the blocks, built from the eight lines after the
    marker in the order sha, name, email, date, date_iso, parents (split on
    spaces), tree, subject; when no header line is itself the marker, the
    number of records is the number of marker lines of the stream. *)
Theorem git_log_parse_well_formed (json_flags : string) (blocks : list block) :
  forallb well_formed_block blocks = true ->
  git_log_parse json_flags (stream_lines blocks) = Ok (map (block_commit json_flags) blocks) /\
  (forallb header_clean blocks = true ->
   length (map (block_commit json_flags) blocks) = marker_count (stream_lines blocks)) /\
  (forall b, In b blocks ->
     exists numstat_section,
       block_lines b =
         START_OF_COMMIT :: b_sha b :: b_name b :: b_email b :: b_date b :: b_date_iso b ::
         b_parents b :: b_tree b :: b_subject b :: numstat_section /\
       block_commit "" b !! "sha" = Some (VStr (b_sha b)) /\
       block_commit "" b !! "name" = Some (VStr (b_name b)) /\
       block_commit "" b !! "email" = Some (VStr (b_email b)) /\
       block_commit "" b !! "date" = Some (VStr (b_date b)) /\
       block_commit "" b !! "date_iso" = Some (VStr (b_date_iso b)) /\
       block_commit "" b !! "parents" = Some (VList (Str.split Str.space (b_parents b))) /\
       block_commit "" b !! "tree" = Some (VStr (b_tree b)) /\
       block_commit "" b !! "subject" = Some (VStr (b_subject b))).
Proof.
  intros Hwf. split; [|split].
  - apply git_log_parse_stream, Hwf.
  - intros Hc. unfold stream_lines.
    rewrite marker_count_app, marker_count_blocks, length_map by assumption.
    cbn. lia.
  - intros b _. eexists. split; [reflexivity|].
    unfold block_commit. rewrite !build_commit_lookup. repeat split; reflexivity.
Qed.

(** The same on the text itself: splitting the printed text gives the lines
    of the stream. *)
Lemma split_unlines lines :
  forallb newline_free lines = true ->
  Str.split Str.newline (unlines lines) = lines ++ [EmptyString].
Proof.
  induction lines as [|line lines IH]; [reflexivity|].
  cbn [forallb unlines]. intros H. apply andb_prop in H as [H1 H2].
  unfold newline_free in H1. apply negb_true_iff in H1.
  rewrite (split_app_sep _ _ _ H1), (IH H2). reflexivity.
Qed.

Lemma git_log_parse_text json_flags blocks :
  forallb well_formed_block blocks = true ->
  forallb newline_free (flat_map block_lines blocks) = true ->
  git_log_parse json_flags (Str.split Str.newline (unlines (flat_map block_lines blocks))) =
  Ok (map (block_commit json_flags) blocks).
Proof.
  intros Hwf Hnl. rewrite (split_unlines _ Hnl). apply git_log_parse_stream, Hwf.
Qed.

Lemma is_numstat_line_spec line :
  is_numstat_line line = true <->
  exists c tl, line = String c tl /\ (Str.isdigit c = true \/ c = "-"%char).
Proof.
  destruct line as [|c tl]; simpl.
  - split; [discriminate|]. intros (c & tl & H & _). discriminate.
  - rewrite orb_true_iff, Ascii.eqb_eq. split.
    + intros H. exists c, tl. auto.
    + intros (c' & tl' & H & Hc). inversion H; subst. assumption.
Qed.

Lemma numstat_run_all lines : Forall (fun line => is_numstat_line line = true) (numstat_run lines).
Proof.
  induction lines as [|line lines IH]; simpl; [constructor|].
  destruct (is_numstat_line line) eqn:E; constructor; assumption.
Qed.

Lemma after_numstat_run_head lines line :
  head (after_numstat_run lines) = Some line -> is_numstat_line line = false.
Proof.
  induction lines as [|l lines IH]; simpl; [discriminate|].
  destruct (is_numstat_line l) eqn:E; [exact IH|].
  simpl. intros H. inversion H; subst. exact E.
Qed.

(** A line that starts like a numstat line but has fewer than three
    tab-separated fields stops the parse. *)
Lemma read_numstat_short_line line rest :
  is_numstat_line line = true ->
  length (Str.split Str.tab line) < 3 ->
  read_numstat (line :: rest) = Err IndexError.
Proof.
  intros Hline Hlen. cbn [read_numstat]. rewrite Hline. unfold numstat_entry.
  destruct (Str.split Str.tab line) as [|f0 [|f1 [|f2 fs]]]; try reflexivity.
  cbn in Hlen. lia.
Qed.

(** C2. When the line after the header block is the marker of the next
    commit, the file list is empty and the cursor does not move. Otherwise
    that one line is skipped and the lines that follow are consumed exactly
    as long as their first character is a digit or a dash; each consumed
    line (three tab-separated fields or more) gives the entry made of its
    first three fields, and the first line that fails the test is where the
    cursor stops. *)
Theorem read_files_spec (line : string) (rest : list string) :
  (line = START_OF_COMMIT ->
   read_files (line :: rest) = Ok ([], line :: rest)) /\
  (line <> START_OF_COMMIT ->
   forallb numstat_ok (numstat_run rest) = true ->
   read_files (line :: rest) =
     Ok (map entry_of_line (numstat_run rest), after_numstat_run rest) /\
   rest = numstat_run rest ++ after_numstat_run rest /\
   Forall (fun l => exists c tl, l = String c tl /\ (Str.isdigit c = true \/ c = "-"%char))
          (numstat_run rest) /\
   (forall l, head (after_numstat_run rest) = Some l ->
              ~ exists c tl, l = String c tl /\ (Str.isdigit c = true \/ c = "-"%char))).
Proof.
  split.
  - intros ->. apply read_files_marker.
  - intros Hne Hok. apply String.eqb_neq in Hne.
    split; [|split; [|split]].
    + unfold read_files. rewrite Hne. apply read_numstat_run, Hok.
    + apply numstat_run_split.
    + eapply Forall_impl; [apply numstat_run_all|].
      intros l Hl. apply is_numstat_line_spec, Hl.
    + intros l Hl Hex. apply after_numstat_run_head in Hl.
      apply is_numstat_line_spec in Hex. congruence.
Qed.

Lemma git_log_loop_truncated json_flags fuel hdr commits :
  length hdr <= 8 ->
  git_log_loop json_flags (S fuel) (START_OF_COMMIT :: hdr) commits = Err IndexError.
Proof.
  intros H.
  destruct hdr as [|l1 [|l2 [|l3 [|l4 [|l5 [|l6 [|l7 [|l8 [|l9 r]]]]]]]]];
    try reflexivity.
  simpl in H. lia.
Qed.

(** C8. When the last block of the stream stops after fewer than eight
    header lines (the text ending there, with or without its final newline),
    the parser raises [IndexError]: it returns no commit list at all, so no
    partial record is appended, and a run on such a text ends in that error
    without writing a table. *)
Theorem git_log_parse_truncated (json_flags : string) (blocks : list block)
    (hdr terminator : list string) :
  forallb well_formed_block blocks = true ->
  length hdr < 8 ->
  terminator = [] \/ terminator = [EmptyString] ->
  let lines := flat_map block_lines blocks ++ START_OF_COMMIT :: hdr ++ terminator in
  git_log_parse json_flags lines = Err IndexError /\
  (forall w args output,
     recognized json_flags = true ->
     getoutput w GIT_LOG_COMMAND = Output output ->
     Str.split Str.newline output = lines ->
     git_log w args json_flags = ([GetOutput GIT_LOG_COMMAND], Raise IndexError)).
Proof.
  intros Hwf Hlen Hterm lines.
  assert (git_log_parse json_flags lines = Err IndexError) as Hparse.
  { unfold git_log_parse, lines.
    pose proof (blocks_length blocks) as Hb.
    rewrite length_app. cbn [length].
    replace (length (flat_map block_lines blocks) + S (length (hdr ++ terminator)))
      with (length blocks +
            S (length (flat_map block_lines blocks) + length (hdr ++ terminator) - length blocks))
      by lia.
    rewrite git_log_loop_blocks; [|assumption|right; eauto].
    apply git_log_loop_truncated.
    rewrite length_app. destruct Hterm as [->| ->]; simpl; lia. }
  split; [exact Hparse|].
  intros w args output Hrec Hout Hsplit.
  rewrite (git_log_run _ _ _ Hrec), Hout, Hsplit, Hparse. reflexivity.
Qed.

(** ** The log pipeline *)

(** Flattening one commit dictionary: the first required key it lacks
    raises [KeyError]; with all of them it gives one row per file change. *)
Lemma normalize_one_build_commit json_flags h files :
  normalize_one "files" REQUIRED_META (build_commit json_flags h files) =
  match List.find (fun p => negb (wanted json_flags (String (fst p) EmptyString))) REQUIRED_CODES with
  | Some (_, key) => Err (KeyError key)
  | None => Ok (commit_rows h files)
  end.
Proof.
  unfold normalize_one, pull_records, pull_field, commit_rows.
  cbn [REQUIRED_META traverse]. rewrite !build_commit_lookup.
  cbn -[wanted].
  destruct (wanted json_flags "f"); [|reflexivity]. cbn -[wanted].
  destruct (wanted json_flags "a"); [|reflexivity]. cbn -[wanted].
  destruct (wanted json_flags "d"); [|reflexivity]. cbn -[wanted].
  destruct (wanted json_flags "s"); [|reflexivity]. cbn -[wanted].
  destruct (wanted json_flags "h"); reflexivity.
Qed.

(** Every record the loop appends is a [build_commit] dictionary. *)
Lemma git_log_loop_built json_flags fuel : forall rest commits result,
  Forall (fun c => exists h files, c = build_commit json_flags h files) commits ->
  git_log_loop json_flags fuel rest commits = Ok result ->
  Forall (fun c => exists h files, c = build_commit json_flags h files) result.
Proof.
  induction fuel as [|fuel IH]; intros rest commits result Hall Hrun.
  - destruct rest as [|line rest]; cbn in Hrun; [congruence|].
    destruct (Str.is_empty line); congruence.
  - destruct rest as [|line rest]; cbn [git_log_loop] in Hrun; [congruence|].
    destruct (Str.is_empty line); [congruence|].
    destruct (read_header rest) as [[h rest1]|e]; cbn [mbind result_bind] in Hrun;
      [|discriminate].
    destruct (read_files rest1) as [[files rest2]|e]; cbn [mbind result_bind] in Hrun;
      [|discriminate].
    eapply IH; [|exact Hrun].
    apply Forall_app. split; [assumption|]. constructor; [eauto|constructor].
Qed.

Lemma find_missing_code json_flags c :
  json_flags <> EmptyString ->
  In c (map fst REQUIRED_CODES) ->
  ~ In c (Str.chars json_flags) ->
  exists c' key,
    List.find (fun p => negb (wanted json_flags (String (fst p) EmptyString))) REQUIRED_CODES
      = Some (c', key) /\
    In key ("files" :: REQUIRED_META).
Proof.
  intros Hne Hin Hout.
  destruct (List.find _ REQUIRED_CODES) as [[c' key]|] eqn:E.
  - exists c', key. split; [reflexivity|].
    apply List.find_some in E as [E _]. cbn in E.
    repeat (destruct E as [E|E]; [inversion E; subst; cbn; tauto|]). destruct E.
  - exfalso.
    assert (wanted json_flags (String c EmptyString) = false) as Hw.
    { apply not_true_is_false. intros Hw. apply wanted_spec in Hw. tauto. }
    assert (exists key, In (c, key) REQUIRED_CODES) as [key Hkey].
    { cbn in Hin. repeat (destruct Hin as [Hin|Hin]; [subst c; eexists; cbn; tauto|]).
      destruct Hin. }
    pose proof (List.find_none _ _ E _ Hkey) as Hnone. cbn [fst] in Hnone.
    rewrite Hw in Hnone. discriminate.
Qed.

Lemma find_missing_none json_flags :
  keeps_required json_flags = true ->
  List.find (fun p => negb (wanted json_flags (String (fst p) EmptyString))) REQUIRED_CODES = None.
Proof.
  unfold keeps_required. induction REQUIRED_CODES as [|p l IH]; [reflexivity|].
  cbn [forallb List.find]. intros H. apply andb_prop in H as [H1 H2].
  rewrite H1. cbn [negb]. apply IH, H2.
Qed.

Lemma traverse_blocks json_flags blocks :
  keeps_required json_flags = true ->
  traverse (normalize_one "files" REQUIRED_META) (map (block_commit json_flags) blocks) =
  Ok (map block_rows blocks).
Proof.
  intros Hk. induction blocks as [|b blocks IH]; [reflexivity|].
  cbn [map traverse]. rewrite IH. unfold block_commit.
  rewrite normalize_one_build_commit, (find_missing_none _ Hk). reflexivity.
Qed.

Lemma concat_map_flat_map {A B} (f : A -> list B) l : concat (map f l) = flat_map f l.
Proof. induction l as [|a l IH]; [reflexivity|]. simpl. rewrite IH. reflexivity. Qed.

Lemma json_normalize_blocks json_flags blocks :
  keeps_required json_flags = true ->
  exists df,
    json_normalize (map (block_commit json_flags) blocks) "files" REQUIRED_META = Ok df /\
    rows df = flat_map block_rows blocks /\
    (rows df <> [] -> columns df = TABLE_COLUMNS).
Proof.
  intros Hk. destruct blocks as [|b blocks].
  - eexists. split; [reflexivity|]. cbn. split; [reflexivity|congruence].
  - unfold json_normalize. cbn [map]. change (block_commit json_flags b :: map _ blocks)
      with (map (block_commit json_flags) (b :: blocks)).
    rewrite (traverse_blocks _ _ Hk). cbn [mbind result_bind].
    rewrite concat_map_flat_map. eexists. split; [reflexivity|]. cbn [rows columns].
    split; [reflexivity|]. destruct (flat_map block_rows (b :: blocks)); [congruence|reflexivity].
Qed.

(** C4, as the code has it. In a run that gets as far as the table, every
    commit contributes one row per file change, the cells of the change
    followed by the name, ISO date, subject and sha of the commit; a commit
    without file changes contributes no row. The table is written to
    [log.csv] with the seven column names as its header. *)
Theorem git_log_table (w : world) (args : list string) (json_flags : string)
    (output : string) (blocks : list block) :
  recognized json_flags = true ->
  keeps_required json_flags = true ->
  getoutput w GIT_LOG_COMMAND = Output output ->
  git_log_parse json_flags (Str.split Str.newline output) =
    Ok (map (block_commit json_flags) blocks) ->
  exists df,
    git_log w args json_flags = ([GetOutput GIT_LOG_COMMAND; ToCsv "log.csv" df], Return tt) /\
    rows df = flat_map block_rows blocks /\
    (forall b, length (block_rows b) = length (block_files b)) /\
    (forall b, block_files b = [] -> block_rows b = []) /\
    (rows df <> [] -> columns df = TABLE_COLUMNS).
Proof.
  intros Hrec Hk Hout Hparse.
  destruct (json_normalize_blocks json_flags blocks Hk) as (df & Hdf & Hrows & Hcols).
  exists df. rewrite (git_log_run _ _ _ Hrec), Hout, Hparse, Hdf.
  split; [reflexivity|]. split; [assumption|].
  split; [intros b; apply length_map|].
  split; [|assumption]. intros b Hb. unfold block_rows. rewrite Hb. reflexivity.
Qed.

(** C10, as the code has it. With a non-empty filter string made of field
    codes that leaves out one of f, a, d, s, h, a run that parses at least
    one commit ends in [KeyError] on the first key the table needs and the
    record lacks; the command has run, no table is written. *)
Theorem git_log_missing_code (w : world) (args : list string) (json_flags : string)
    (output : string) (commits : list (gmap string value)) :
  json_flags <> EmptyString ->
  recognized json_flags = true ->
  (exists c, In c (map fst REQUIRED_CODES) /\ ~ In c (Str.chars json_flags)) ->
  getoutput w GIT_LOG_COMMAND = Output output ->
  git_log_parse json_flags (Str.split Str.newline output) = Ok commits ->
  commits <> [] ->
  exists key,
    In key ["files"; "name"; "date_iso"; "subject"; "sha"] /\
    git_log w args json_flags = ([GetOutput GIT_LOG_COMMAND], Raise (KeyError key)) /\
    written_tables (fst (git_log w args json_flags)) = [].
Proof.
  intros Hne Hrec (c & Hc & Hout) Hanswer Hparse Hcommits.
  assert (Forall (fun c => exists h files, c = build_commit json_flags h files) commits) as Hall.
  { eapply git_log_loop_built; [|exact Hparse]. constructor. }
  destruct commits as [|c0 commits]; [contradiction|].
  inversion Hall as [|? ? (h & files & ->) _]; subst.
  destruct (find_missing_code json_flags c Hne Hc Hout) as (c' & key & Hfind & Hkey).
  exists key. split; [exact Hkey|].
  assert (json_normalize (build_commit json_flags h files :: commits) "files" REQUIRED_META
          = Err (KeyError key)) as Hnorm.
  { unfold json_normalize. cbn [traverse].
    rewrite normalize_one_build_commit, Hfind. reflexivity. }
  rewrite (git_log_run _ _ _ Hrec), Hanswer, Hparse, Hnorm. split; reflexivity.
Qed.

(** The stream as [getoutput] leaves it, without the final newline: the
    last block still parses when it has its numstat section, and raises
    [IndexError] when it ends with the subject line. *)
Lemma git_log_parse_stripped json_flags blocks b :
  forallb well_formed_block (blocks ++ [b]) = true ->
  git_log_parse json_flags (flat_map block_lines (blocks ++ [b])) =
  match b_numstat b with
  | Some _ => Ok (map (block_commit json_flags) (blocks ++ [b]))
  | None => Err IndexError
  end.
Proof.
  intros Hwf. rewrite forallb_app in Hwf. apply andb_prop in Hwf as [Hwf Hb].
  cbn [forallb] in Hb. rewrite andb_true_r in Hb.
  unfold git_log_parse. rewrite flat_map_app. cbn [flat_map]. rewrite app_nil_r.
  pose proof (blocks_length blocks) as Hlen. pose proof (block_lines_length b) as Hlen'.
  rewrite length_app.
  replace (length (flat_map block_lines blocks) + length (block_lines b))
    with (length blocks +
          S (length (flat_map block_lines blocks) + length (block_lines b) - length blocks - 1))
    by lia.
  rewrite git_log_loop_blocks; [|assumption|right; unfold block_lines; eauto].
  generalize (length (flat_map block_lines blocks) + length (block_lines b)
              - length blocks - 1).
  intros fuel. rewrite map_app. cbn [app map].
  unfold well_formed_block in Hb. unfold block_commit at 2 3.
  unfold block_files, block_lines.
  cbn [git_log_loop app Str.is_empty START_OF_COMMIT].
  rewrite read_header_block. cbn [mbind result_bind].
  destruct (b_numstat b) as [numstat|]; [|reflexivity].
  rewrite <- (app_nil_r numstat) at 1.
  rewrite read_files_numstat; [|reflexivity|assumption|left; reflexivity].
  cbn [mbind result_bind]. apply git_log_loop_nil.
Qed.

(** C1 on the code. On the text git prints, every line ended by a
    newline, the parser recovers one record per marker line. But the lines
    the program parses come from [getoutput], which strips the final
    newline, and then a well-formed log whose last commit has no numstat
    section ends with the subject line: the parser reads one line past the
    end and raises [IndexError], no record is recovered and no table is
    written. The log of two commits, the older one without file changes, is
    such an input. *)
Theorem git_log_last_commit_without_files :
  let blocks := [change_block; merge_block] in
  let printed := unlines (flat_map block_lines blocks) in
  forallb well_formed_block blocks = true /\
  forallb header_clean blocks = true /\
  marker_count (flat_map block_lines blocks) = 2 /\
  git_log_parse "" (Str.split Str.newline printed) = Ok (map (block_commit "") blocks) /\
  getoutput stripped_world GIT_LOG_COMMAND = Output (Str.drop_last printed) /\
  git_log_parse "" (Str.split Str.newline (Str.drop_last printed)) = Err IndexError /\
  git_log stripped_world ["log"] "" = ([GetOutput GIT_LOG_COMMAND], Raise IndexError) /\
  written_tables (fst (git_log stripped_world ["log"] "")) = [] /\
  (forall json_flags blocks,
     forallb well_formed_block blocks = true ->
     git_log_parse json_flags (stream_lines blocks) =
     Ok (map (block_commit json_flags) blocks)) /\
  (forall json_flags blocks b,
     forallb well_formed_block (blocks ++ [b]) = true ->
     b_numstat b = None ->
     git_log_parse json_flags (flat_map block_lines (blocks ++ [b])) = Err IndexError).
Proof.
  cbv zeta.
  split; [reflexivity|]. split; [reflexivity|]. split; [reflexivity|].
  split; [vm_compute; reflexivity|]. split; [vm_compute; reflexivity|].
  split; [vm_compute; reflexivity|]. split; [vm_compute; reflexivity|].
  split; [vm_compute; reflexivity|]. split.
  - intros json_flags blocks. apply git_log_parse_stream.
  - intros json_flags blocks b Hwf Hb.
    rewrite (git_log_parse_stripped json_flags blocks b Hwf), Hb. reflexivity.
Qed.

(** ** The command line *)

(** C5 at an input with caller arguments: lines 122 to 130 compose the
    argument list, the caller's arguments first, but the command that runs
    is the fixed text of line 136, in which none of them occurs. *)
Theorem git_log_drops_caller_arguments :
  let args := ["log"; "--author=alice"; "--oneline"; "-n"; "5"] in
  git_log_args args =
    ["log"; "--author=alice"; "-n"; "5";
     "--pretty=tformat:@@@@@@@@@@%n%h%n%aN%n%aE%n%at%n%ai%n%p%n%t%n%s";
     "--date=local"; "--numstat"] /\
  List.filter is_subprocess (fst (git_log two_commit_world args "")) =
    [GetOutput GIT_LOG_COMMAND] /\
  Str.split Str.space GIT_LOG_COMMAND =
    ["git"; "log"; "--pretty=tformat:@@@@@@@@@@%n%h%n%aN%n%aE%n%at%n%ai%n%p%n%t%n%s";
     "--date=local"; "--numstat"] /\
  ~ In "--author=alice" (Str.split Str.space GIT_LOG_COMMAND).
Proof.
  cbv zeta. split; [reflexivity|]. split; [vm_compute; reflexivity|].
  split; [reflexivity|]. vm_compute. intuition discriminate.
Qed.

(** Whatever the caller passes, the one subprocess of a run that passes the
    filter check is the fixed command line. *)
Lemma git_log_command_fixed w args json_flags :
  recognized json_flags = true ->
  List.filter is_subprocess (fst (git_log w args json_flags)) = [GetOutput GIT_LOG_COMMAND].
Proof.
  intros Hrec. rewrite (git_log_run _ _ _ Hrec).
  destruct (getoutput w GIT_LOG_COMMAND) as [output|message]; [|reflexivity].
  destruct (git_log_parse _ _); [|reflexivity].
  destruct (json_normalize _ _ _); reflexivity.
Qed.

(** ** Runs that contradict the tabular claims *)

(** C4 fails as stated: for a two-commit log, one commit with two file
    changes and one with none, the table has two data rows, not three; the
    commit without file changes has no row at all. *)
Lemma two_commit_table_has_two_rows :
  exists df,
    git_log two_commit_world ["log"] "" =
      ([GetOutput GIT_LOG_COMMAND; ToCsv "log.csv" df], Return tt) /\
    map block_files [merge_block; change_block] =
      [[]; [FileEntry "3" "1" "foo.txt"; FileEntry "-" "-" "bin.dat"]] /\
    length (rows df) = 2 /\
    length (rows df) <> 3 /\
    Forall (fun row => nth 6 row (VStr "") = VStr "abc1234") (rows df).
Proof.
  eexists. split; [vm_compute; reflexivity|]. cbn [rows].
  split; [reflexivity|]. split; [reflexivity|]. split; [cbn; lia|].
  repeat constructor.
Qed.

(** C10 fails as stated: with the filter [a], which leaves out f, d, s and
    h, a log without commits is flattened without error and the table is
    written; with the filter [x] the run ends in the filter check, before
    any parsing. *)
Lemma empty_log_with_filter_writes_table :
  git_log empty_world ["log"] "a" =
    ([GetOutput GIT_LOG_COMMAND; ToCsv "log.csv" (mkDataFrame [] [])], Return tt) /\
  written_tables (fst (git_log empty_world ["log"] "a")) <> [] /\
  ~ In "f"%char (Str.chars "a") /\
  git_log two_commit_world ["log"] "x" =
    ([StderrWrite (flag_error "Unrecognized flag" "x")], Exit (-2)).
Proof.
  split; [vm_compute; reflexivity|]. split; [vm_compute; discriminate|].
  split; [|vm_compute; reflexivity]. cbn. intuition discriminate.
Qed.

(** ** Shortlog mode *)

(** The loop over the lines: every line is handled on its own, the
    entries are kept in the order of the lines, and the first count that is
    not an integer raises. *)
Lemma shortlog_entries_spec email_flag lines : forall author_entries,
  shortlog_entries email_flag lines author_entries =
  results ← traverse (shortlog_line email_flag) lines;
  Ok (author_entries ++ omap id results).
Proof.
  induction lines as [|line lines IH]; intros author_entries.
  - cbn. rewrite app_nil_r. reflexivity.
  - cbn [shortlog_entries traverse].
    destruct (shortlog_line email_flag line) as [entry|e]; [|reflexivity].
    cbn [mbind result_bind]. rewrite IH.
    destruct (traverse (shortlog_line email_flag) lines) as [results|e]; [|reflexivity].
    cbn [mbind result_bind]. destruct entry as [entry|]; cbn [omap list_omap id].
    + rewrite <- app_assoc. reflexivity.
    + reflexivity.
Qed.

(** One line of the summary, as the loop body treats it when it is given
    text. A line whose trimmed text has no tab is
    skipped. Otherwise the text before the first tab is parsed as the
    integer count and the rest, its tab-separated pieces joined by spaces,
    is the author label: without e-mail aggregation the label is the name;
    with it, a label that splits on [<] into exactly two parts gives the
    trimmed first part as the name and the trimmed second part without its
    last character, the closing [>], as the e-mail, and any other label
    gives no entry. The sample line gives Alice, a@example.com, 5 with
    aggregation and the whole label with count 5 without. *)
Theorem shortlog_line_spec (line : string) :
  (Str.has_char Str.tab (Str.strip line) = false ->
   forall email_flag, shortlog_line email_flag line = Ok None) /\
  (forall count_text label n,
     Str.strip line = count_text +:+ String Str.tab label ->
     Str.has_char Str.tab count_text = false ->
     Str.int count_text = Ok n ->
     let author := Str.join " " (Str.split Str.tab label) in
     shortlog_line false line = Ok (Some (AuthorEntry author None n)) /\
     (forall first second,
        Str.split "<" author = [first; second] ->
        shortlog_line true line =
          Ok (Some (AuthorEntry (Str.strip first) (Some (Str.drop_last (Str.strip second))) n)) /\
        (forall address, Str.strip second = address +:+ ">" ->
                         Str.drop_last (Str.strip second) = address)) /\
     (length (Str.split "<" author) <> 2 -> shortlog_line true line = Ok None)) /\
  shortlog_line true alice_line = Ok (Some (AuthorEntry "Alice" (Some "a@example.com") 5)) /\
  shortlog_line false alice_line = Ok (Some (AuthorEntry "Alice <a@example.com>" None 5)) /\
  (forall email_flag lines,
     shortlog_entries email_flag (line :: lines) [] =
     entry ← shortlog_line email_flag line;
     entries ← shortlog_entries email_flag lines [];
     Ok (match entry with
         | Some e => e :: entries
         | None => entries
         end)).
Proof.
  split; [|split; [|split; [|split]]]; try reflexivity; cycle 2.
  { intros email_flag lines. rewrite !shortlog_entries_spec. cbn [traverse].
    destruct (shortlog_line email_flag line) as [entry|e]; [|reflexivity].
    cbn [mbind result_bind].
    destruct (traverse (shortlog_line email_flag) lines) as [results|e]; [|reflexivity].
    cbn [mbind result_bind]. destruct entry; reflexivity. }
  - intros Hno email_flag. unfold shortlog_line. rewrite (split_no_sep _ _ Hno). reflexivity.
  - intros count_text label n Hline Hcount Hint author.
    assert (forall email_flag, shortlog_line email_flag line =
              if email_flag then
                match Str.split "<" author with
                | [f0; f1] =>
                    Ok (Some (AuthorEntry (Str.strip f0)
                                          (Some (Str.drop_last (Str.strip f1))) n))
                | _ => Ok None
                end
              else Ok (Some (AuthorEntry author None n))) as Hrun.
    { intros email_flag. unfold shortlog_line. rewrite Hline, (split_app_sep _ _ _ Hcount).
      pose proof (split_not_nil Str.tab label) as Hnil. subst author.
      destruct (Str.split Str.tab label) as [|piece pieces]; [contradiction|].
      rewrite Hint. reflexivity. }
    split; [apply (Hrun false)|]. split.
    + intros first second Hsplit. rewrite (Hrun true), Hsplit. split; [reflexivity|].
      intros address ->. apply drop_last_app.
    + intros Hlen. rewrite (Hrun true).
      destruct (Str.split "<" author) as [|f0 [|f1 [|f2 fs]]]; try reflexivity.
      exfalso. apply Hlen. reflexivity.
Qed.

(** [has_flag] answers [False] exactly on the argument lists it can scan to
    the end without meeting a single-dash flag that contains the flag. *)
Lemma has_flag_false_iff all_args flag_to_check :
  has_flag all_args flag_to_check = Ok false <->
  forallb scannable all_args = true /\
  forallb (fun arg => negb (single_dash_flag arg && Str.contains flag_to_check arg)) all_args
    = true.
Proof.
  induction all_args as [|arg rest IH]; [cbn; tauto|].
  cbn [has_flag forallb]. rewrite !andb_true_iff.
  destruct arg as [|c0 tl]; [cbn; intuition discriminate|].
  unfold single_dash_flag, scannable.
  destruct (Ascii.eqb_spec c0 "-") as [->|Hne].
  - destruct tl as [|c1 tl]; [cbn; intuition discriminate|].
    destruct (negb (Ascii.eqb c1 "-") && Str.contains flag_to_check (String "-" (String c1 tl)));
      cbn [negb]; [intuition discriminate|tauto].
  - assert ((match c0 with
             | "-"%char => match tl with
                           | EmptyString => false
                           | String _ _ => true
                           end
             | _ => true
             end) = true) as ->.
    { destruct c0 as [[] [] [] [] [] [] [] []]; try reflexivity. contradiction Hne. reflexivity. }
    assert ((match c0 with
             | "-"%char => match tl with
                           | EmptyString => false
                           | String c _ => negb (Ascii.eqb c "-")
                           end
             | _ => false
             end) = false) as ->.
    { destruct c0 as [[] [] [] [] [] [] [] []]; try reflexivity. contradiction Hne. reflexivity. }
    cbn [andb negb]. tauto.
Qed.

Lemma has_flag_true all_args flag_to_check :
  has_flag all_args flag_to_check = Ok true ->
  exists arg, In arg all_args /\ single_dash_flag arg = true /\
              Str.contains flag_to_check arg = true.
Proof.
  induction all_args as [|arg rest IH]; [discriminate|].
  cbn [has_flag]. destruct arg as [|c0 tl]; [discriminate|].
  destruct (Ascii.eqb_spec c0 "-") as [->|Hne].
  - destruct tl as [|c1 tl]; [discriminate|].
    destruct (negb (Ascii.eqb c1 "-") && Str.contains flag_to_check (String "-" (String c1 tl)))
      eqn:E.
    + intros _. apply andb_prop in E as [E1 E2].
      exists (String "-" (String c1 tl)). split; [left; reflexivity|]. split; assumption.
    + intros H. destruct (IH H) as (arg & Hin & Hflag). exists arg. split; [right|]; assumption.
  - intros H. destruct (IH H) as (arg & Hin & Hflag). exists arg. split; [right|]; assumption.
Qed.

(** A scan that finds no flag raises nothing, so a scan of the same
    arguments for another flag returns as well. *)
Lemma has_flag_returns all_args flag flag' :
  has_flag all_args flag = Ok false -> exists b, has_flag all_args flag' = Ok b.
Proof.
  induction all_args as [|arg rest IH]; [cbn; eauto|].
  cbn [has_flag]. destruct arg as [|c0 tl]; [discriminate|].
  destruct (Ascii.eqb c0 "-").
  - destruct tl as [|c1 tl]; [discriminate|].
    destruct (negb (Ascii.eqb c1 "-") && Str.contains flag (String c0 (String c1 tl)));
      [discriminate|].
    destruct (negb (Ascii.eqb c1 "-") && Str.contains flag' (String c0 (String c1 tl)));
      [eauto|exact IH].
  - exact IH.
Qed.

(** Without the summary flag no entry is built, and [json.dumps] of the
    empty list is the empty array. *)
Lemma author_summary_without_flag email_flag lines :
  author_summary false email_flag lines = Ok [] /\ json_dumps [] = "[]".
Proof. split; reflexivity. Qed.

(** A run of shortlog mode ends in an exception: in [has_flag], in the
    command, or at the latest when the captured bytes are split. *)
Lemma git_shortlog_raises w args json_flags :
  exists e,
    git_shortlog w args json_flags = ([], Raise e) \/
    git_shortlog w args json_flags = ([CheckOutput ("git" :: args)], Raise e).
Proof.
  unfold git_shortlog.
  destruct (has_flag args "s") as [summary_flag|e]; [|eexists; left; reflexivity].
  destruct (has_flag args "n") as [numbered_flag|e]; [|eexists; left; reflexivity].
  destruct (has_flag args "e") as [email_flag|e]; [|eexists; left; reflexivity].
  cbn [lift mbind io_bind app run_check_output emit].
  destruct (check_output w ("git" :: args)) as [output|e]; eexists; right; reflexivity.
Qed.

(** C7 on the code. Given the lines of the sample output as text, the
    summary loop builds the entry the claim describes: Alice, a@example.com
    and 5 with the e-mail flag, the whole label and 5 without. But the loop
    is never given them: [check_output] returns bytes, splitting them on
    the [str] newline raises [TypeError], and the run of shortlog mode with
    the summary flag ends there, with no entry built and nothing printed. No
    run of shortlog mode returns. *)
Theorem git_shortlog_sample_line_raises :
  let printed := alice_line +:+ NEWLINE in
  has_flag ["shortlog"; "-s"; "-e"] "s" = Ok true /\
  has_flag ["shortlog"; "-s"; "-e"] "e" = Ok true /\
  has_flag ["shortlog"; "-s"] "e" = Ok false /\
  split_lines (Text printed) = Ok [alice_line; EmptyString] /\
  author_summary true true [alice_line; EmptyString] =
    Ok [AuthorEntry "Alice" (Some "a@example.com") 5] /\
  author_summary true false [alice_line; EmptyString] =
    Ok [AuthorEntry "Alice <a@example.com>" None 5] /\
  check_output shortlog_world ["git"; "shortlog"; "-s"; "-e"] =
    Ok (list_byte_of_string printed) /\
  split_lines (Bytes (list_byte_of_string printed)) = Err TypeError /\
  git_shortlog shortlog_world ["shortlog"; "-s"; "-e"] "" =
    ([CheckOutput ["git"; "shortlog"; "-s"; "-e"]], Raise TypeError) /\
  git_shortlog shortlog_world ["shortlog"; "-s"] "" =
    ([CheckOutput ["git"; "shortlog"; "-s"]], Raise TypeError) /\
  (forall w args json_flags, snd (git_shortlog w args json_flags) <> Return tt).
Proof.
  cbv zeta. repeat (split; [reflexivity|]).
  intros w args json_flags.
  destruct (git_shortlog_raises w args json_flags) as [e [-> | ->]]; discriminate.
Qed.

(** C9 on the code. With the arguments [shortlog -n], which hold no
    single-dash flag with an [s], and git printing the sample line,
    [check_output] returns bytes, splitting them on the [str] newline raises
    [TypeError] and nothing is printed, where the claim has the empty array
    printed; and no run of shortlog mode, whatever the arguments and the
    output of the command, prints anything. *)
Theorem git_shortlog_never_prints :
  has_flag ["shortlog"; "-n"] "s" = Ok false /\
  git_shortlog shortlog_world ["shortlog"; "-n"] "" =
    ([CheckOutput ["git"; "shortlog"; "-n"]], Raise TypeError) /\
  (forall w args json_flags,
     List.filter is_print (fst (git_shortlog w args json_flags)) = []).
Proof.
  split; [reflexivity|]. split; [reflexivity|].
  intros w args json_flags.
  destruct (git_shortlog_raises w args json_flags) as [e [-> | ->]]; reflexivity.
Qed.

(** The lines of the sample output, had they been text, and the array
    [json.dumps] makes of the entry. *)
Example author_summary_alice :
  author_summary true true
    (Str.split Str.newline (alice_line +:+ String Str.newline EmptyString)) =
    Ok [AuthorEntry "Alice" (Some "a@example.com") 5] /\
  Str.chars (json_dumps [AuthorEntry "Alice" (Some "a@example.com") 5]) =
    Str.chars "[{" ++ [Str.dquote] ++ Str.chars "name" ++ [Str.dquote] ++ Str.chars ": " ++
    [Str.dquote] ++ Str.chars "Alice" ++ [Str.dquote] ++ Str.chars ", " ++
    [Str.dquote] ++ Str.chars "email" ++ [Str.dquote] ++ Str.chars ": " ++
    [Str.dquote] ++ Str.chars "a@example.com" ++ [Str.dquote] ++ Str.chars ", " ++
    [Str.dquote] ++ Str.chars "count" ++ [Str.dquote] ++ Str.chars ": 5}]".
Proof. split; vm_compute; reflexivity. Qed.

(** ** The theorems at the sample inputs *)

Lemma git_log_parse_well_formed_witness :
  forallb well_formed_block [merge_block; change_block] = true /\
  forallb header_clean [merge_block; change_block] = true /\
  git_log_parse "" (stream_lines [merge_block; change_block]) =
    Ok (map (block_commit "") [merge_block; change_block]) /\
  length (map (block_commit "") [merge_block; change_block]) =
    marker_count (stream_lines [merge_block; change_block]).
Proof.
  split; [reflexivity|]. split; [reflexivity|].
  destruct (git_log_parse_well_formed "" [merge_block; change_block] eq_refl) as (H1 & H2 & _).
  split; [exact H1|]. exact (H2 eq_refl).
Defined.

Lemma read_files_spec_witness :
  EmptyString <> START_OF_COMMIT /\
  forallb numstat_ok (numstat_run sample_numstat_rest) = true /\
  read_files (EmptyString :: sample_numstat_rest) =
    Ok ([FileEntry "3" "1" "foo.txt"; FileEntry "-" "-" "bin.dat"],
        [START_OF_COMMIT; "0a1b2c3"]) /\
  read_files (START_OF_COMMIT :: ["0a1b2c3"]) = Ok ([], START_OF_COMMIT :: ["0a1b2c3"]).
Proof.
  split; [discriminate|]. split; [reflexivity|]. split.
  - destruct (read_files_spec EmptyString sample_numstat_rest) as [_ H].
    destruct H as [H _]; [discriminate|reflexivity|exact H].
  - destruct (read_files_spec START_OF_COMMIT ["0a1b2c3"]) as [H _].
    apply H. reflexivity.
Defined.

Lemma build_commit_filter_witness :
  "as" <> EmptyString /\
  In ("subject", "s"%char) FIELD_CODES /\
  In "s"%char (Str.chars "as") /\
  is_Some (build_commit "as" (block_header change_block) (block_files change_block) !! "subject") /\
  build_commit "" (block_header change_block) (block_files change_block) !! "files" =
    Some (VFiles [FileEntry "3" "1" "foo.txt"; FileEntry "-" "-" "bin.dat"]).
Proof.
  split; [discriminate|].
  assert (In ("subject", "s"%char) FIELD_CODES) as Hin by (cbn; tauto).
  assert (In "s"%char (Str.chars "as")) as Hs by (cbn; tauto).
  split; [exact Hin|]. split; [exact Hs|].
  destruct (build_commit_filter (block_header change_block) (block_files change_block) "as")
    as (_ & H & _).
  destruct (build_commit_filter (block_header change_block) (block_files change_block) "")
    as (H' & _).
  split.
  - apply (H ltac:(discriminate) "subject" "s"%char Hin). exact Hs.
  - apply (H' eq_refl). cbn. tauto.
Defined.

Lemma git_log_table_witness :
  recognized "" = true /\
  keeps_required "" = true /\
  exists df,
    git_log two_commit_world ["log"] "" =
      ([GetOutput GIT_LOG_COMMAND; ToCsv "log.csv" df], Return tt) /\
    rows df = flat_map block_rows [merge_block; change_block].
Proof.
  split; [reflexivity|]. split; [reflexivity|].
  destruct (git_log_table two_commit_world ["log"] "" two_commit_text
              [merge_block; change_block])
    as (df & Hrun & Hrows & _).
  - reflexivity.
  - reflexivity.
  - reflexivity.
  - vm_compute. reflexivity.
  - exists df. split; assumption.
Defined.

Lemma git_log_unrecognized_flag_witness :
  (exists c, In c (Str.chars "ax") /\ ~ In c (Str.chars "aehdsfpt")) /\
  exists status,
    git_log two_commit_world ["log"] "ax" =
      ([StderrWrite (flag_error "Unrecognized flag" "x")], Exit status) /\
    status <> 0%Z.
Proof.
  assert (exists c, In c (Str.chars "ax") /\ ~ In c (Str.chars "aehdsfpt")) as Hbad.
  { exists "x"%char. split; [cbn; tauto|]. cbn. intuition discriminate. }
  split; [exact Hbad|].
  destruct (git_log_unrecognized_flag two_commit_world ["log"] "ax" Hbad)
    as (status & Hrun & _ & Hstatus & _).
  exists status. split; [exact Hrun|exact Hstatus].
Defined.

Lemma shortlog_line_spec_witness :
  Str.strip alice_line = "5" +:+ String Str.tab "Alice <a@example.com>" /\
  Str.has_char Str.tab "5" = false /\
  Str.int "5" = Ok 5%Z /\
  shortlog_line false alice_line = Ok (Some (AuthorEntry "Alice <a@example.com>" None 5)) /\
  shortlog_line true alice_line = Ok (Some (AuthorEntry "Alice" (Some "a@example.com") 5)) /\
  shortlog_line true "no tab here" = Ok None.
Proof.
  split; [reflexivity|]. split; [reflexivity|]. split; [reflexivity|].
  destruct (shortlog_line_spec alice_line) as (_ & H & _).
  destruct (H "5" "Alice <a@example.com>" 5%Z eq_refl eq_refl eq_refl) as (H1 & H2 & _).
  split; [exact H1|]. split.
  - destruct (H2 "Alice " "a@example.com>" eq_refl) as [H3 _]. exact H3.
  - destruct (shortlog_line_spec "no tab here") as (H0 & _). apply H0. reflexivity.
Defined.

Lemma git_log_parse_truncated_witness :
  forallb well_formed_block [change_block] = true /\
  length ["def5678"; "Bob"] < 8 /\
  git_log_parse ""
    (flat_map block_lines [change_block] ++
     START_OF_COMMIT :: ["def5678"; "Bob"] ++ [EmptyString]) = Err IndexError.
Proof.
  split; [reflexivity|]. split; [cbn; lia|].
  destruct (git_log_parse_truncated "" [change_block] ["def5678"; "Bob"] [EmptyString])
    as [H _]; [reflexivity|cbn; lia|right; reflexivity|exact H].
Defined.

Lemma git_log_missing_code_witness :
  "a" <> EmptyString /\
  recognized "a" = true /\
  (exists c, In c (map fst REQUIRED_CODES) /\ ~ In c (Str.chars "a")) /\
  exists key,
    In key ["files"; "name"; "date_iso"; "subject"; "sha"] /\
    git_log two_commit_world ["log"] "a" = ([GetOutput GIT_LOG_COMMAND], Raise (KeyError key)).
Proof.
  assert (exists c, In c (map fst REQUIRED_CODES) /\ ~ In c (Str.chars "a")) as Hc.
  { exists "f"%char. split; [cbn; tauto|]. cbn. intuition discriminate. }
  split; [discriminate|]. split; [reflexivity|]. split; [exact Hc|].
  destruct (git_log_missing_code two_commit_world ["log"] "a" two_commit_text
              (map (block_commit "a") [merge_block; change_block]))
    as (key & Hkey & Hrun & _).
  - discriminate.
  - reflexivity.
  - exact Hc.
  - reflexivity.
  - vm_compute. reflexivity.
  - discriminate.
  - exists key. split; assumption.
Defined.

(** ** The built-ins and the entry point at sample inputs *)

Example split_numstat :
  Str.split Str.tab (numstat_line "3" "1" "foo.txt") = ["3"; "1"; "foo.txt"] /\
  numstat_entry (numstat_line "3" "1" "foo.txt") = Ok (FileEntry "3" "1" "foo.txt") /\
  numstat_entry (numstat_line "-" "-" "bin.dat") = Ok (FileEntry "-" "-" "bin.dat") /\
  numstat_entry "5 files" = Err IndexError.
Proof. repeat split; reflexivity. Qed.

Example split_root_parents : Str.split Str.space "" = [""].
Proof. reflexivity. Qed.

Example strip_example : Str.strip ("  5 " +:+ String Str.tab " ") = "5".
Proof. reflexivity. Qed.

Example int_example :
  Str.int " 1_000 " = Ok 1000%Z /\ Str.int "-12" = Ok (-12)%Z /\
  Str.int "1__0" = Err ValueError /\ Str.int "five" = Err ValueError.
Proof. repeat split; reflexivity. Qed.

Example of_Z_example : Str.of_Z 0 = "0" /\ Str.of_Z 5 = "5" /\ Str.of_Z (-12) = "-12".
Proof. repeat split; reflexivity. Qed.

Example remove_elements_example :
  remove_elements ["gitjson"; "log"; "--json=as"; "-n"; "5"] (inl "--json=") =
    ["gitjson"; "log"; "-n"; "5"].
Proof. reflexivity. Qed.

(** The entry point hands the filter to log mode only: shortlog mode never
    checks it. *)
Example main_dispatch :
  main two_commit_world ["gitjson"; "log"; "--json=x"] =
    ([StderrWrite (flag_error "Unrecognized flag" "x")], Exit (-2)) /\
  main shortlog_world ["gitjson"; "shortlog"; "-n"; "--json=x"] =
    ([CheckOutput ["git"; "shortlog"; "-n"]], Raise TypeError) /\
  fst (main two_commit_world ["gitjson"; "--help"]) = [Print USAGE] /\
  snd (main two_commit_world ["gitjson"; "status"]) = Exit (-1).
Proof. repeat split; vm_compute; reflexivity. Qed.

(** A count that is not an integer stops the whole summary. *)
Example shortlog_bad_count :
  shortlog_entries false [alice_line; "five" +:+ String Str.tab "Bob"] [] = Err ValueError.
Proof. reflexivity. Qed.

(** An empty argument or a lone dash stops [has_flag]. *)
Example has_flag_short_argument :
  has_flag ["shortlog"; "-"] "s" = Err IndexError /\
  has_flag ["shortlog"; ""] "s" = Err IndexError /\
  has_flag ["shortlog"; "-s"; "-"] "s" = Ok true.
Proof. repeat split; reflexivity. Qed.

(** * Further properties of the code *)

(** ** Argument helpers *)

Lemma startswith_spec p s : Str.startswith p s = true <-> exists suffix, s = p +:+ suffix.
Proof.
  revert s. induction p as [|a p IH]; intros s.
  - split; [intros _; exists s; reflexivity|reflexivity].
  - destruct s as [|b s]; cbn [Str.startswith].
    + split; [discriminate|]. intros [suffix H]. rewrite append_cons in H. discriminate.
    + rewrite andb_true_iff, Ascii.eqb_eq, IH. split.
      * intros [-> [suffix ->]]. exists suffix. reflexivity.
      * intros [suffix H]. rewrite append_cons in H. inversion H; subst. eauto.
Qed.





(** X2. On an empty-prefix removal nothing is left, whatever the list; with
    no prefix at all the list comes back unchanged; and a single prefix
    given as a string acts like the one-element list of it. *)
Theorem remove_elements_edges (string_list : list string) (removals : list string)
    (prefix : string) :
  (In EmptyString removals -> remove_elements string_list (inr removals) = []) /\
  remove_elements string_list (inr []) = string_list /\
  remove_elements string_list (inl prefix) = remove_elements string_list (inr [prefix]).
Proof.
  split; [|split].
  - intros Hin. unfold remove_elements.
    induction string_list as [|el l IH]; [reflexivity|]. cbn [List.filter].
    assert (existsb (fun removal => Str.startswith removal el) removals = true) as ->.
    { apply existsb_exists. exists EmptyString. split; [assumption|reflexivity]. }
    exact IH.
  - unfold remove_elements. induction string_list as [|el l IH]; [reflexivity|].
    cbn [List.filter existsb negb]. f_equal. exact IH.
  - reflexivity.
Qed.

Lemma remove_elements_edges_witness :
  remove_elements ["log"; "--json=ah"] (inr ["--json="; EmptyString]) = [].
Proof.
  apply (proj1 (remove_elements_edges ["log"; "--json=ah"] ["--json="; EmptyString]
                  EmptyString)).
  right. left. reflexivity.
Defined.

Lemma passed_over_step flag_to_check arg rest :
  passed_over flag_to_check arg = true ->
  has_flag (arg :: rest) flag_to_check = has_flag rest flag_to_check.
Proof.
  unfold passed_over, scannable, single_dash_flag. cbn [has_flag].
  destruct arg as [|c0 tl]; [discriminate|].
  destruct (Ascii.eqb_spec c0 "-") as [->|Hne].
  - destruct tl as [|c1 tl]; [discriminate|]. cbn [andb].
    destruct (negb (Ascii.eqb c1 "-") && Str.contains flag_to_check (String "-" (String c1 tl)));
      [discriminate|reflexivity].
  - reflexivity.
Qed.

Lemma has_flag_head flag_to_check arg rest :
  passed_over flag_to_check arg = false ->
  (scannable arg = false /\ has_flag (arg :: rest) flag_to_check = Err IndexError) \/
  (single_dash_flag arg = true /\ Str.contains flag_to_check arg = true /\
   has_flag (arg :: rest) flag_to_check = Ok true).
Proof.
  unfold passed_over, scannable, single_dash_flag. cbn [has_flag].
  destruct arg as [|c0 tl]; [left; split; reflexivity|].
  destruct (Ascii.eqb_spec c0 "-") as [->|Hne].
  - destruct tl as [|c1 tl]; [left; split; reflexivity|]. cbn [andb].
    destruct (negb (Ascii.eqb c1 "-")) eqn:E1; cbn [andb negb]; [|discriminate].
    destruct (Str.contains flag_to_check (String "-" (String c1 tl))) eqn:E2;
      cbn [negb]; [|discriminate].
    intros _. right. repeat split.
  - assert ((match c0 with
             | "-"%char => match tl with
                           | EmptyString => false
                           | String _ _ => true
                           end
             | _ => true
             end) = true) as ->.
    { destruct c0 as [[] [] [] [] [] [] [] []]; try reflexivity. contradiction Hne. reflexivity. }
    assert ((match c0 with
             | "-"%char => match tl with
                           | EmptyString => false
                           | String c _ => negb (Ascii.eqb c "-")
                           end
             | _ => false
             end) = false) as ->.
    { destruct c0 as [[] [] [] [] [] [] [] []]; try reflexivity. contradiction Hne. reflexivity. }
    discriminate.
Qed.

(** X3. [has_flag] scans the arguments from the left. It answers [False]
    when it passes over all of them; [True] at the first argument it does
    not pass over when that one is a single-dash flag containing the flag;
    and it raises [IndexError], nothing else, when that argument is empty or
    a lone dash. *)
Theorem has_flag_spec (all_args : list string) (flag_to_check : string) :
  match has_flag all_args flag_to_check with
  | Ok false => forallb (passed_over flag_to_check) all_args = true
  | Ok true =>
      exists before arg after,
        all_args = before ++ arg :: after /\
        forallb (passed_over flag_to_check) before = true /\
        single_dash_flag arg = true /\ Str.contains flag_to_check arg = true
  | Err e =>
      e = IndexError /\
      exists before arg after,
        all_args = before ++ arg :: after /\
        forallb (passed_over flag_to_check) before = true /\
        (arg = EmptyString \/ arg = "-")
  end.
Proof.
  induction all_args as [|arg rest IH]; [reflexivity|].
  destruct (passed_over flag_to_check arg) eqn:E.
  - rewrite (passed_over_step _ _ _ E).
    destruct (has_flag rest flag_to_check) as [[|]|e].
    + destruct IH as (before & a & after & -> & Hb & Ha).
      exists (arg :: before), a, after. cbn [forallb app]. rewrite E. auto.
    + cbn [forallb]. rewrite E. exact IH.
    + destruct IH as (-> & before & a & after & -> & Hb & Ha). split; [reflexivity|].
      exists (arg :: before), a, after. cbn [forallb app]. rewrite E. auto.
  - destruct (has_flag_head _ _ rest E) as [[Hs ->]|(H1 & H2 & ->)].
    + split; [reflexivity|]. exists [], arg, rest. repeat split.
      unfold scannable in Hs. destruct arg as [|c0 [|c1 tl]]; auto; [|].
      * destruct c0 as [[] [] [] [] [] [] [] []]; try discriminate. auto.
      * destruct c0 as [[] [] [] [] [] [] [] []]; discriminate.
    + exists [], arg, rest. repeat split; assumption.
Qed.

Lemma check_flags_loop_closed incoming allowed_flags error_message has_error :
  check_flags_loop incoming allowed_flags error_message has_error =
  (map (fun c => StderrWrite (flag_error error_message c))
       (List.filter (fun c => negb (Str.has_char c allowed_flags)) incoming),
   Return (has_error ||
           existsb (fun c => negb (Str.has_char c allowed_flags)) incoming)).
Proof.
  revert has_error. induction incoming as [|c incoming IH]; intros has_error.
  - cbn. rewrite orb_false_r. reflexivity.
  - cbn [check_flags_loop List.filter existsb]. rewrite contains_char.
    destruct (Str.has_char c allowed_flags); cbn [negb].
    + apply IH.
    + unfold emit. cbn [mbind io_bind]. rewrite IH. cbn [map app orb].
      rewrite orb_true_r. reflexivity.
Qed.

(** X4. [check_flags] does not stop at the first bad flag: it writes one
    diagnostic for every character of the incoming string that does not
    occur in the allowed string, in order and with repeats, and only then
    exits with status -2; when there is none, the empty string included, it
    writes nothing and returns. *)
Theorem check_flags_closed (incoming_flags allowed_flags error_message : string) :
  check_flags incoming_flags allowed_flags error_message =
  (map (fun c => StderrWrite (flag_error error_message c))
       (offending incoming_flags allowed_flags),
   match offending incoming_flags allowed_flags with
   | [] => Return tt
   | _ :: _ => Exit (-2)
   end) /\
  (offending incoming_flags allowed_flags = [] <->
   forall c, In c (Str.chars incoming_flags) -> In c (Str.chars allowed_flags)) /\
  check_flags EmptyString allowed_flags error_message = ([], Return tt).
Proof.
  split; [|split; [|reflexivity]].
  - unfold check_flags. rewrite check_flags_loop_closed. cbn [orb mbind io_bind].
    rewrite existsb_filter_nil. fold (offending incoming_flags allowed_flags).
    destruct (offending incoming_flags allowed_flags); cbn; rewrite ?app_nil_r; reflexivity.
  - unfold offending. induction (Str.chars incoming_flags) as [|c l IH].
    + cbn. split; [intros _ c []|reflexivity].
    + cbn [List.filter]. destruct (Str.has_char c allowed_flags) eqn:E; cbn [negb].
      * rewrite IH. split.
        -- intros H x [<-|Hx]; [apply has_char_In, E|auto].
        -- intros H x Hx. apply H. right. exact Hx.
      * split; [discriminate|]. intros H. exfalso.
        assert (Str.has_char c allowed_flags = true) as E'
          by (apply has_char_In, H; left; reflexivity).
        congruence.
Qed.

(** ** Shortlog mode *)

Lemma has_flag_error all_args flag_to_check e :
  has_flag all_args flag_to_check = Err e -> e = IndexError.
Proof.
  induction all_args as [|arg rest IH]; [discriminate|].
  cbn [has_flag]. destruct arg as [|c0 [|c1 tl]].
  - congruence.
  - destruct (Ascii.eqb c0 "-"); [congruence|exact IH].
  - destruct (Ascii.eqb c0 "-"); [|exact IH].
    destruct (negb (Ascii.eqb c1 "-") && Str.contains flag_to_check (String c0 (String c1 tl)));
      [discriminate|exact IH].
Qed.

Lemma has_flag_scannable all_args flag_to_check :
  forallb scannable all_args = true -> exists b, has_flag all_args flag_to_check = Ok b.
Proof.
  induction all_args as [|arg rest IH]; [eauto|].
  cbn [forallb]. intros H. apply andb_prop in H as [Harg Hrest].
  cbn [has_flag]. destruct arg as [|c0 [|c1 tl]].
  - discriminate.
  - destruct (Ascii.eqb_spec c0 "-") as [->|]; [discriminate|auto].
  - destruct (Ascii.eqb c0 "-"); [|auto].
    destruct (negb (Ascii.eqb c1 "-") && Str.contains flag_to_check (String c0 (String c1 tl)));
      eauto.
Qed.

(** X5. A run of shortlog mode has two shapes. When one of the three flag
    scans meets an empty argument or a lone dash, it raises [IndexError]
    before any subprocess is started. Otherwise it starts [git] with the
    arguments it was given, unchanged, and ends in the exception of the
    command or, when the command succeeds, in the [TypeError] of splitting
    its bytes. The filter string plays no part. *)
Theorem git_shortlog_outcome (w : world) (args : list string) (json_flags : string) :
  git_shortlog w args json_flags =
    match has_flag args "s", has_flag args "n", has_flag args "e" with
    | Ok _, Ok _, Ok _ => ([CheckOutput ("git" :: args)], Raise (shortlog_exception w args))
    | _, _, _ => ([], Raise IndexError)
    end /\
  (forallb scannable args = true ->
   git_shortlog w args json_flags =
     ([CheckOutput ("git" :: args)], Raise (shortlog_exception w args))).
Proof.
  assert (git_shortlog w args json_flags =
          match has_flag args "s", has_flag args "n", has_flag args "e" with
          | Ok _, Ok _, Ok _ => ([CheckOutput ("git" :: args)], Raise (shortlog_exception w args))
          | _, _, _ => ([], Raise IndexError)
          end) as Hrun.
  { unfold git_shortlog, shortlog_exception.
    destruct (has_flag args "s") as [summary_flag|e] eqn:Es;
      [|apply has_flag_error in Es as ->; reflexivity].
    destruct (has_flag args "n") as [numbered_flag|e] eqn:En;
      [|apply has_flag_error in En as ->; reflexivity].
    destruct (has_flag args "e") as [email_flag|e] eqn:Ee;
      [|apply has_flag_error in Ee as ->; reflexivity].
    cbn [lift mbind io_bind app run_check_output emit].
    destruct (check_output w ("git" :: args)) as [output|e]; reflexivity. }
  split; [exact Hrun|].
  intros Hscan. rewrite Hrun.
  destruct (has_flag_scannable args "s" Hscan) as [b1 ->].
  destruct (has_flag_scannable args "n" Hscan) as [b2 ->].
  destruct (has_flag_scannable args "e" Hscan) as [b3 ->].
  reflexivity.
Qed.

Lemma git_shortlog_outcome_witness :
  git_shortlog failing_world ["shortlog"; "-sne"] "" =
    ([CheckOutput ["git"; "shortlog"; "-sne"]], Raise (CalledProcessError 128)).
Proof.
  apply (proj2 (git_shortlog_outcome failing_world ["shortlog"; "-sne"] "")). reflexivity.
Defined.

(** ** The entry point *)

Lemma find_json_flags_app before after json_flags :
  find_json_flags (before ++ after) json_flags =
  find_json_flags after (find_json_flags before json_flags).
Proof.
  revert json_flags. induction before as [|arg before IH]; intros json_flags; [reflexivity|].
  cbn [app find_json_flags]. apply IH.
Qed.

Lemma find_json_flags_none args json_flags :
  forallb (fun arg => negb (is_json_flag arg)) args = true ->
  find_json_flags args json_flags = json_flags.
Proof.
  induction args as [|arg args IH]; [reflexivity|].
  cbn [forallb find_json_flags]. intros H. apply andb_prop in H as [H1 H2].
  unfold is_json_flag in H1. apply negb_true_iff in H1. rewrite H1. apply IH, H2.
Qed.

Lemma drop_prefix p s : Str.drop (String.length p) (p +:+ s) = s.
Proof.
  induction p as [|c p IH]; [reflexivity|]. rewrite append_cons. exact IH.
Qed.

(** X6. The filter string the entry point hands on is the text after
    [--json=] of the last argument that starts with it, an empty text
    included; when no argument starts with it, the default stays. *)
Theorem find_json_flags_last (json_flags : string) :
  (forall before value after,
     forallb (fun arg => negb (is_json_flag arg)) after = true ->
     find_json_flags (before ++ ("--json=" +:+ value) :: after) json_flags = value) /\
  (forall args,
     forallb (fun arg => negb (is_json_flag arg)) args = true ->
     find_json_flags args json_flags = json_flags).
Proof.
  split.
  - intros before value after Hafter.
    rewrite find_json_flags_app. cbn [find_json_flags].
    assert (Str.startswith "--json=" ("--json=" +:+ value) = true) as ->
      by (apply startswith_spec; eauto).
    change (Str.drop 7 ("--json=" +:+ value))
      with (Str.drop (String.length "--json=") ("--json=" +:+ value)).
    rewrite drop_prefix. apply find_json_flags_none, Hafter.
  - intros args. apply find_json_flags_none.
Qed.

Lemma find_json_flags_last_witness :
  find_json_flags (["--json=ah"; "log"] ++ ("--json=" +:+ "fd") :: ["--author=x"]) "" = "fd" /\
  find_json_flags ["log"; "-n"; "5"] "" = "".
Proof.
  split.
  - apply (proj1 (find_json_flags_last "") ["--json=ah"; "log"] "fd" ["--author=x"]).
    reflexivity.
  - apply (proj2 (find_json_flags_last "") ["log"; "-n"; "5"]). reflexivity.
Defined.

Lemma find_command_spec args command :
  find_command args command =
  match command_word args with
  | None => ([], Return command)
  | Some arg =>
      if String.eqb arg "log" || String.eqb arg "shortlog"
      then ([], Return arg)
      else ([StderrWrite UNSUPPORTED_COMMAND], Exit (-1))
  end.
Proof.
  unfold command_word. induction args as [|arg args IH]; [reflexivity|].
  cbn [find_command List.find]. fold (is_command_word arg).
  destruct (is_command_word arg); [|exact IH].
  destruct (String.eqb arg "log"); [reflexivity|].
  destruct (String.eqb arg "shortlog"); reflexivity.
Qed.

Lemma io_bind_ret {A B} (a : A) (k : A -> io B) : (([], Return a) : io A) ≫= k = k a.
Proof. cbn. destruct (k a). reflexivity. Qed.

Lemma main_cases w argv :
  main w argv =
  if asks_for_help argv then ([Print USAGE], Exit 0)
  else
    let args := tail (remove_elements argv (inl "--json=")) in
    let json_flags := find_json_flags (tail argv) "" in
    match command_word (tail argv) with
    | None => git_log w args json_flags
    | Some arg =>
        if String.eqb arg "log" then git_log w args json_flags
        else if String.eqb arg "shortlog" then git_shortlog w args json_flags
        else ([StderrWrite UNSUPPORTED_COMMAND], Exit (-1))
    end.
Proof.
  unfold main. fold (asks_for_help argv).
  destruct (asks_for_help argv); [reflexivity|].
  rewrite find_command_spec. cbv zeta.
  destruct (command_word (tail argv)) as [arg|].
  - destruct (String.eqb_spec arg "log") as [->|Hlog].
    + cbn [orb]. rewrite io_bind_ret. reflexivity.
    + destruct (String.eqb_spec arg "shortlog") as [->|Hshort].
      * cbn [orb]. rewrite io_bind_ret. reflexivity.
      * reflexivity.
  - rewrite io_bind_ret. reflexivity.
Qed.

(** ** The parser on arbitrary lines *)

Lemma git_log_loop_records json_flags fuel : forall rest commits,
  git_log_loop json_flags fuel rest commits =
  records ← git_log_records fuel rest;
  Ok (commits ++ map (record_commit json_flags) records).
Proof.
  induction fuel as [|fuel IH]; intros rest commits.
  - destruct rest as [|line rest]; cbn; [rewrite app_nil_r; reflexivity|].
    destruct (Str.is_empty line); cbn; [rewrite app_nil_r|]; reflexivity.
  - destruct rest as [|line rest]; cbn [git_log_loop git_log_records].
    { cbn. rewrite app_nil_r. reflexivity. }
    destruct (Str.is_empty line); [cbn; rewrite app_nil_r; reflexivity|].
    destruct (read_header rest) as [[h rest1]|e]; [|reflexivity].
    cbn [mbind result_bind].
    destruct (read_files rest1) as [[files rest2]|e]; [|reflexivity].
    cbn [mbind result_bind]. rewrite IH.
    destruct (git_log_records fuel rest2) as [records|e]; [|reflexivity].
    cbn [mbind result_bind map]. rewrite <- app_assoc. reflexivity.
Qed.

Lemma git_log_parse_records json_flags lines :
  git_log_parse json_flags lines =
  records ← git_log_records (length lines) lines;
  Ok (map (record_commit json_flags) records).
Proof. unfold git_log_parse. rewrite git_log_loop_records. reflexivity. Qed.

Lemma read_header_error lines e : read_header lines = Err e -> e = IndexError.
Proof.
  unfold read_header.
  destruct lines as [|l1 [|l2 [|l3 [|l4 [|l5 [|l6 [|l7 [|l8 r]]]]]]]]; congruence.
Qed.

Lemma read_numstat_error lines e : read_numstat lines = Err e -> e = IndexError.
Proof.
  induction lines as [|line lines IH]; cbn [read_numstat]; [discriminate|].
  destruct (is_numstat_line line); [|discriminate].
  unfold numstat_entry.
  destruct (Str.split Str.tab line) as [|f0 [|f1 [|f2 fs]]]; cbn [mbind result_bind];
    try congruence.
  destruct (read_numstat lines) as [[files rest]|e']; cbn; [discriminate|].
  intros H. apply IH. congruence.
Qed.

Lemma read_files_error lines e : read_files lines = Err e -> e = IndexError.
Proof.
  unfold read_files. destruct lines as [|line lines]; [congruence|].
  destruct (String.eqb line START_OF_COMMIT); [discriminate|apply read_numstat_error].
Qed.

Lemma git_log_records_error fuel : forall rest e,
  git_log_records fuel rest = Err e -> e = IndexError \/ e = OutOfFuel.
Proof.
  induction fuel as [|fuel IH]; intros rest e.
  - destruct rest as [|line rest]; cbn; [discriminate|].
    destruct (Str.is_empty line); [discriminate|]. intros H. right. congruence.
  - destruct rest as [|line rest]; cbn [git_log_records]; [discriminate|].
    destruct (Str.is_empty line); [discriminate|].
    destruct (read_header rest) as [[h rest1]|e1] eqn:Eh; cbn [mbind result_bind].
    + destruct (read_files rest1) as [[files rest2]|e2] eqn:Ef; cbn [mbind result_bind].
      * destruct (git_log_records fuel rest2) as [records|e3] eqn:Er; cbn [mbind result_bind];
          [discriminate|].
        intros H. apply (IH rest2). congruence.
      * intros H. left. apply read_files_error in Ef. congruence.
    + intros H. left. apply read_header_error in Eh. congruence.
Qed.

Lemma git_log_parse_error json_flags lines e :
  git_log_parse json_flags lines = Err e -> e = IndexError.
Proof.
  intros H. pose proof (git_log_parse_total json_flags lines) as Htotal.
  rewrite git_log_parse_records in H.
  destruct (git_log_records (length lines) lines) as [records|e'] eqn:E; [discriminate|].
  cbn in H. inversion H; subst. rewrite git_log_parse_records, E in Htotal.
  apply git_log_records_error in E as [->| ->]; [reflexivity|].
  exfalso. apply Htotal. reflexivity.
Qed.

Lemma git_log_records_length fuel : forall rest records,
  git_log_records fuel rest = Ok records -> 9 * length records <= length rest.
Proof.
  induction fuel as [|fuel IH]; intros rest records.
  - destruct rest as [|line rest]; cbn; [intros H; inversion H; cbn; lia|].
    destruct (Str.is_empty line); [|discriminate]. intros H. inversion H. cbn. lia.
  - destruct rest as [|line rest]; cbn [git_log_records]; [intros H; inversion H; cbn; lia|].
    destruct (Str.is_empty line); [intros H; inversion H; cbn; lia|].
    destruct (read_header rest) as [[h rest1]|e1] eqn:Eh; cbn [mbind result_bind];
      [|discriminate].
    destruct (read_files rest1) as [[files rest2]|e2] eqn:Ef; cbn [mbind result_bind];
      [|discriminate].
    destruct (git_log_records fuel rest2) as [records'|e3] eqn:Er; cbn [mbind result_bind];
      [|discriminate].
    intros H. inversion H; subst. apply IH in Er.
    apply read_header_length in Eh. apply read_files_length in Ef.
    cbn [length]. lia.
Qed.

Lemma read_header_parents lines h rest :
  read_header lines = Ok (h, rest) -> h_parents h <> [].
Proof.
  unfold read_header.
  destruct lines as [|l1 [|l2 [|l3 [|l4 [|l5 [|l6 [|l7 [|l8 r]]]]]]]]; try discriminate.
  intros H. inversion H; subst. cbn [h_parents]. apply split_not_nil.
Qed.

Lemma git_log_records_parents fuel : forall rest records,
  git_log_records fuel rest = Ok records ->
  Forall (fun record => h_parents (fst record) <> []) records.
Proof.
  induction fuel as [|fuel IH]; intros rest records.
  - destruct rest as [|line rest]; cbn; [intros H; inversion H; constructor|].
    destruct (Str.is_empty line); [|discriminate]. intros H. inversion H. constructor.
  - destruct rest as [|line rest]; cbn [git_log_records]; [intros H; inversion H; constructor|].
    destruct (Str.is_empty line); [intros H; inversion H; constructor|].
    destruct (read_header rest) as [[h rest1]|e1] eqn:Eh; cbn [mbind result_bind];
      [|discriminate].
    destruct (read_files rest1) as [[files rest2]|e2] eqn:Ef; cbn [mbind result_bind];
      [|discriminate].
    destruct (git_log_records fuel rest2) as [records'|e3] eqn:Er; cbn [mbind result_bind];
      [|discriminate].
    intros H. inversion H; subst. constructor; [|eapply IH, Er].
    cbn [fst]. eapply read_header_parents, Eh.
Qed.

(** X7. The filter string has no say in how the lines are read. Whether
    the parser raises, and what, is the same under every filter; and when it
    returns, there is one list of parsed records, the same for every filter,
    of which the result holds the dictionaries, so the number of records
    never depends on the filter. *)
Theorem git_log_parse_filter_independent (lines : list string) :
  (forall json_flags json_flags' e,
     git_log_parse json_flags lines = Err e -> git_log_parse json_flags' lines = Err e) /\
  (forall json_flags commits,
     git_log_parse json_flags lines = Ok commits ->
     exists records,
       commits = map (record_commit json_flags) records /\
       forall json_flags',
         git_log_parse json_flags' lines = Ok (map (record_commit json_flags') records)).
Proof.
  split.
  - intros json_flags json_flags' e. rewrite !git_log_parse_records.
    destruct (git_log_records (length lines) lines); [discriminate|trivial].
  - intros json_flags commits. rewrite git_log_parse_records.
    destruct (git_log_records (length lines) lines) as [records|e] eqn:E; [|discriminate].
    cbn [mbind result_bind]. intros H. inversion H; subst.
    exists records. split; [reflexivity|].
    intros json_flags'. rewrite git_log_parse_records, E. reflexivity.
Qed.

Lemma git_log_parse_filter_independent_witness :
  exists records,
    map (block_commit "ah") [merge_block; change_block] = map (record_commit "ah") records /\
    forall json_flags',
      git_log_parse json_flags' (stream_lines [merge_block; change_block]) =
      Ok (map (record_commit json_flags') records).
Proof.
  apply (proj2 (git_log_parse_filter_independent (stream_lines [merge_block; change_block]))).
  vm_compute. reflexivity.
Defined.

(** X8. On any list of lines the parser either returns or raises
    [IndexError], nothing else; and every record it returns has used up at
    least nine lines: the marker and the eight header lines. *)
Theorem git_log_parse_bounds (json_flags : string) (lines : list string) :
  (forall e, git_log_parse json_flags lines = Err e -> e = IndexError) /\
  (forall commits,
     git_log_parse json_flags lines = Ok commits -> 9 * length commits <= length lines).
Proof.
  split; [apply git_log_parse_error|].
  intros commits. rewrite git_log_parse_records.
  destruct (git_log_records (length lines) lines) as [records|e] eqn:E; [|discriminate].
  cbn [mbind result_bind]. intros H. inversion H; subst.
  rewrite length_map. apply (git_log_records_length _ _ _ E).
Qed.

Lemma git_log_parse_bounds_witness :
  9 * length (map (block_commit "") [merge_block; change_block])
  <= length (stream_lines [merge_block; change_block]).
Proof.
  apply (proj2 (git_log_parse_bounds "" (stream_lines [merge_block; change_block]))).
  vm_compute. reflexivity.
Defined.

(** X9. Whatever the lines, the records of one run all hold the same keys;
    under [parents] a record holds a list that is never empty (a commit
    without parents gets the list of one empty string), and under [files] a
    list of file entries. *)
Theorem git_log_parse_shape (json_flags : string) (lines : list string)
    (commits : list (gmap string value)) :
  git_log_parse json_flags lines = Ok commits ->
  (forall c c' key, In c commits -> In c' commits ->
                    (is_Some (c !! key) <-> is_Some (c' !! key))) /\
  (forall c v, In c commits -> c !! "parents" = Some v ->
               exists parents, v = VList parents /\ parents <> []) /\
  (forall c v, In c commits -> c !! "files" = Some v -> exists files, v = VFiles files).
Proof.
  rewrite git_log_parse_records.
  destruct (git_log_records (length lines) lines) as [records|e] eqn:E; [|discriminate].
  cbn [mbind result_bind]. intros H. inversion H; subst. clear H.
  apply git_log_records_parents in E. rewrite List.Forall_forall in E.
  split; [|split].
  - intros c c' key Hc Hc'.
    apply in_map_iff in Hc as ([h files] & <- & _).
    apply in_map_iff in Hc' as ([h' files'] & <- & _).
    unfold record_commit. cbn [fst snd]. rewrite !build_commit_lookup.
    destruct (assoc key FIELD_CODES) as [code|] eqn:Ecode; [|reflexivity].
    destruct (wanted json_flags (String code EmptyString)); [|reflexivity].
    cbn [assoc FIELD_CODES all_fields] in *.
    repeat match goal with
           | |- context [String.eqb key ?k] =>
               destruct (String.eqb key k); [split; eauto|]
           end.
    reflexivity.
  - intros c v Hc. apply in_map_iff in Hc as ([h files] & <- & Hin).
    apply E in Hin. cbn [fst] in Hin.
    unfold record_commit. cbn [fst snd]. rewrite build_commit_lookup.
    cbn -[wanted]. destruct (wanted json_flags "p"); [|discriminate].
    intros Hv. inversion Hv. eauto.
  - intros c v Hc. apply in_map_iff in Hc as ([h files] & <- & Hin).
    unfold record_commit. cbn [fst snd]. rewrite build_commit_lookup.
    cbn -[wanted]. destruct (wanted json_flags "f"); [|discriminate].
    intros Hv. inversion Hv. eauto.
Qed.

Lemma read_header_eight hdr rest :
  length hdr = 8 -> exists h, read_header (hdr ++ rest) = Ok (h, rest).
Proof.
  destruct hdr as [|l1 [|l2 [|l3 [|l4 [|l5 [|l6 [|l7 [|l8 [|l9 r]]]]]]]]]; try discriminate.
  intros _. eexists. reflexivity.
Qed.

Lemma git_log_loop_unchecked json_flags fuel marker separator hdr rest commits :
  marker <> EmptyString ->
  separator <> START_OF_COMMIT ->
  length hdr = 8 ->
  git_log_loop json_flags fuel (marker :: hdr ++ separator :: rest) commits =
  git_log_loop json_flags fuel (START_OF_COMMIT :: hdr ++ EmptyString :: rest) commits.
Proof.
  intros Hmarker Hsep Hlen.
  destruct marker as [|c marker]; [contradiction|].
  destruct fuel as [|fuel]; [reflexivity|].
  cbn [git_log_loop Str.is_empty START_OF_COMMIT].
  destruct (read_header_eight hdr (separator :: rest) Hlen) as [h Hh].
  destruct (read_header_eight hdr (EmptyString :: rest) Hlen) as [h' Hh'].
  assert (h' = h) as ->.
  { destruct hdr as [|l1 [|l2 [|l3 [|l4 [|l5 [|l6 [|l7 [|l8 [|l9 r]]]]]]]]];
      try discriminate. cbn in Hh, Hh'. congruence. }
  rewrite Hh, Hh'. cbn [mbind result_bind].
  unfold read_files. apply String.eqb_neq in Hsep. rewrite Hsep. reflexivity.
Qed.

Lemma git_log_loop_last_block json_flags fuel blocks b numstat rest commits :
  forallb well_formed_block (blocks ++ [b]) = true ->
  b_numstat b = Some numstat ->
  (rest = [] \/ exists line rest', rest = line :: rest' /\ is_numstat_line line = false) ->
  git_log_loop json_flags (length blocks + S fuel)
    (flat_map block_lines (blocks ++ [b]) ++ rest) commits =
  git_log_loop json_flags fuel rest (commits ++ map (block_commit json_flags) (blocks ++ [b])).
Proof.
  intros Hwf Hb Hrest. rewrite forallb_app in Hwf. apply andb_prop in Hwf as [Hwf Hwfb].
  cbn [forallb] in Hwfb. rewrite andb_true_r in Hwfb.
  rewrite flat_map_app. cbn [flat_map]. rewrite app_nil_r, <- app_assoc.
  rewrite git_log_loop_blocks; [|assumption|right; unfold block_lines; cbn [app]; eauto].
  rewrite map_app. cbn [map]. rewrite app_assoc.
  unfold well_formed_block in Hwfb. rewrite Hb in Hwfb.
  assert (block_lines b = START_OF_COMMIT :: header_lines b ++ EmptyString :: numstat) as ->
    by (unfold block_lines; rewrite Hb; reflexivity).
  assert (block_commit json_flags b =
          build_commit json_flags (block_header b) (map entry_of_line numstat)) as ->
    by (unfold block_commit, block_files; rewrite Hb; reflexivity).
  cbn [git_log_loop app Str.is_empty START_OF_COMMIT].
  rewrite <- app_assoc, read_header_block. cbn [mbind result_bind app].
  rewrite read_files_numstat; [|reflexivity|assumption|assumption].
  reflexivity.
Qed.

(** X10. Which lines the parser leaves unchecked. The line after the
    subject is only compared with the marker: any other line is skipped as
    the separator before the numstat lines. The line a record starts with
    is only tested for being non-empty when the record is the first one, or
    when it follows a block with a numstat section and does not itself
    start like a numstat line: any such line serves as the marker. After a
    block without numstat section the marker is compared with: the word
    [commit] in its place is skipped as the separator, the records shift by
    one line, and the second one reads its sha from the name line and loses
    its first file entry. *)
Theorem git_log_parse_unchecked_lines (json_flags marker separator : string)
    (hdr rest : list string) :
  marker <> EmptyString ->
  separator <> START_OF_COMMIT ->
  length hdr = 8 ->
  git_log_parse json_flags (marker :: hdr ++ separator :: rest) =
    git_log_parse json_flags (START_OF_COMMIT :: hdr ++ EmptyString :: rest) /\
  (forall blocks b numstat,
     forallb well_formed_block (blocks ++ [b]) = true ->
     b_numstat b = Some numstat ->
     is_numstat_line marker = false ->
     git_log_parse json_flags
       (flat_map block_lines (blocks ++ [b]) ++ marker :: hdr ++ separator :: rest) =
     git_log_parse json_flags
       (flat_map block_lines (blocks ++ [b]) ++
        START_OF_COMMIT :: hdr ++ EmptyString :: rest)) /\
  field_of "sha" (git_log_parse "" (flat_map block_lines [merge_block; change_block])) =
    Ok [Some (VStr "def5678"); Some (VStr "abc1234")] /\
  field_of "sha" (git_log_parse "" unmarked_lines) =
    Ok [Some (VStr "def5678"); Some (VStr "Alice")] /\
  field_of "files" (git_log_parse "" unmarked_lines) =
    Ok [Some (VFiles []); Some (VFiles [FileEntry "-" "-" "bin.dat"])].
Proof.
  intros Hmarker Hsep Hlen. split; [|split; [|split; [|split]]].
  - unfold git_log_parse. cbn [length]. rewrite !length_app. cbn [length].
    apply git_log_loop_unchecked; assumption.
  - intros blocks b numstat Hwf Hb Hstart. unfold git_log_parse.
    pose proof (blocks_length (blocks ++ [b])) as Hblocks.
    rewrite length_app in Hblocks. cbn [length] in Hblocks.
    rewrite !length_app. cbn [length]. rewrite !length_app. cbn [length].
    set (total := length (flat_map block_lines (blocks ++ [b])) +
                  S (length hdr + S (length rest))).
    replace total with (length blocks + S (total - length blocks - 1)) by (unfold total; lia).
    rewrite !(git_log_loop_last_block _ _ _ _ numstat); try assumption.
    + apply git_log_loop_unchecked; assumption.
    + right. eexists _, _. split; reflexivity.
    + right. eexists _, _. split; [reflexivity|assumption].
  - vm_compute. reflexivity.
  - vm_compute. reflexivity.
  - vm_compute. reflexivity.
Qed.

Lemma git_log_parse_unchecked_lines_witness :
  git_log_parse ""
    (flat_map block_lines ([merge_block] ++ [change_block]) ++
     "commit" :: header_lines change_block ++ "--" :: [numstat_line "3" "1" "foo.txt"]) =
  git_log_parse ""
    (flat_map block_lines ([merge_block] ++ [change_block]) ++
     START_OF_COMMIT :: header_lines change_block ++
     EmptyString :: [numstat_line "3" "1" "foo.txt"]).
Proof.
  destruct (git_log_parse_unchecked_lines "" "commit" "--" (header_lines change_block)
              [numstat_line "3" "1" "foo.txt"]) as (_ & H & _).
  - discriminate.
  - discriminate.
  - reflexivity.
  - apply (H [merge_block] change_block
             [numstat_line "3" "1" "foo.txt"; numstat_line "-" "-" "bin.dat"]);
      reflexivity.
Defined.

(** X11. An empty line where the next record should start ends the log:
    after a block with a numstat section the parser returns the records read
    so far and never looks at what follows the empty line; on lines that
    begin with an empty line it returns no record at all. *)
Theorem git_log_parse_stops_at_blank (json_flags : string) (blocks : list block) (b : block)
    (numstat rest : list string) :
  forallb well_formed_block (blocks ++ [b]) = true ->
  b_numstat b = Some numstat ->
  git_log_parse json_flags (flat_map block_lines (blocks ++ [b]) ++ EmptyString :: rest) =
    Ok (map (block_commit json_flags) (blocks ++ [b])) /\
  git_log_parse json_flags (EmptyString :: rest) = Ok [].
Proof.
  intros Hwf Hb. split; [|reflexivity].
  unfold git_log_parse.
  pose proof (blocks_length (blocks ++ [b])) as Hlen.
  rewrite length_app in Hlen |- *. cbn [length] in Hlen |- *.
  replace (length (flat_map block_lines (blocks ++ [b])) + S (length rest))
    with (length blocks +
          S (length (flat_map block_lines (blocks ++ [b])) + length rest - length blocks))
    by lia.
  rewrite (git_log_loop_last_block _ _ _ _ numstat); [|assumption|assumption|].
  - destruct (_ + _ - _); reflexivity.
  - right. eexists _, _. split; reflexivity.
Qed.

Lemma git_log_parse_stops_at_blank_witness :
  git_log_parse "h"
    (flat_map block_lines ([merge_block] ++ [change_block]) ++ EmptyString :: ["not"; "read"]) =
    Ok (map (block_commit "h") ([merge_block] ++ [change_block])) /\
  git_log_parse "h" (EmptyString :: ["not"; "read"]) = Ok [].
Proof.
  apply (git_log_parse_stops_at_blank "h" [merge_block] change_block
           [numstat_line "3" "1" "foo.txt"; numstat_line "-" "-" "bin.dat"]);
    reflexivity.
Defined.

Lemma split_join lines :
  lines <> [] ->
  forallb newline_free lines = true ->
  Str.split Str.newline (Str.join NEWLINE lines) = lines.
Proof.
  induction lines as [|line lines IH]; [contradiction|]. intros _.
  cbn [forallb]. intros H. apply andb_prop in H as [H1 H2].
  unfold newline_free in H1. apply negb_true_iff in H1.
  destruct lines as [|line' lines].
  - cbn [Str.join]. apply split_no_sep, H1.
  - change (Str.join NEWLINE (line :: line' :: lines))
      with (line +:+ NEWLINE +:+ Str.join NEWLINE (line' :: lines)).
    unfold NEWLINE at 1. rewrite append_cons, append_empty.
    rewrite (split_app_sep _ _ _ H1), IH; [reflexivity|discriminate|assumption].
Qed.

(** ** Runs of log mode *)

Lemma traverse_records json_flags records :
  traverse (normalize_one "files" REQUIRED_META) (map (record_commit json_flags) records) =
  match records, first_missing json_flags with
  | [], _ => Ok []
  | _ :: _, Some key => Err (KeyError key)
  | _ :: _, None => Ok (map (fun record => commit_rows (fst record) (snd record)) records)
  end.
Proof.
  unfold first_missing. induction records as [|[h files] records IH]; [reflexivity|].
  cbn [map traverse].
  change (record_commit json_flags (h, files)) with (build_commit json_flags h files).
  rewrite normalize_one_build_commit.
  destruct (List.find _ REQUIRED_CODES) as [[c key]|]; [reflexivity|].
  cbn [option_map mbind result_bind] in *. rewrite IH.
  destruct records; reflexivity.
Qed.

Lemma json_normalize_records json_flags records :
  json_normalize (map (record_commit json_flags) records) "files" REQUIRED_META =
  match records, first_missing json_flags with
  | _ :: _, Some key => Err (KeyError key)
  | _, _ => Ok (records_frame records)
  end.
Proof.
  destruct records as [|record records]; [reflexivity|].
  unfold json_normalize. cbn [map].
  change (record_commit json_flags record :: map (record_commit json_flags) records)
    with (map (record_commit json_flags) (record :: records)).
  rewrite traverse_records.
  destruct (first_missing json_flags); [reflexivity|].
  cbn [mbind result_bind]. rewrite concat_map_flat_map. reflexivity.
Qed.

Lemma first_missing_key json_flags key :
  first_missing json_flags = Some key -> In key ("files" :: REQUIRED_META).
Proof.
  unfold first_missing.
  destruct (List.find _ REQUIRED_CODES) as [[c k]|] eqn:E; [|discriminate].
  cbn. intros H. inversion H; subst. apply List.find_some in E as [E _]. cbn in E.
  repeat (destruct E as [E|E]; [inversion E; subst; tauto|]). destruct E.
Qed.

(** The five ways a run of [git_log] can go. *)
Lemma git_log_cases w args json_flags :
  git_log w args json_flags =
  if recognized json_flags then
    match getoutput w GIT_LOG_COMMAND with
    | Raised message => ([GetOutput GIT_LOG_COMMAND; Print message], Raise UnboundLocalError)
    | Output output =>
        let lines := Str.split Str.newline output in
        match git_log_records (length lines) lines with
        | Err _ => ([GetOutput GIT_LOG_COMMAND], Raise IndexError)
        | Ok records =>
            match records, first_missing json_flags with
            | _ :: _, Some key => ([GetOutput GIT_LOG_COMMAND], Raise (KeyError key))
            | _, _ => ([GetOutput GIT_LOG_COMMAND; ToCsv "log.csv" (records_frame records)],
                       Return tt)
            end
        end
    end
  else
    (map (fun c => StderrWrite (flag_error "Unrecognized flag" c)) (unrecognized json_flags),
     Exit (-2)).
Proof.
  destruct (recognized json_flags) eqn:Hrec.
  - rewrite (git_log_run _ _ _ Hrec).
    destruct (getoutput w GIT_LOG_COMMAND) as [output|message]; [|reflexivity]. cbv zeta.
    destruct (git_log_parse json_flags _) as [commits|e] eqn:Hparse.
    + rewrite git_log_parse_records in Hparse.
      destruct (git_log_records _ _) as [records|e]; [|discriminate].
      cbn in Hparse. inversion Hparse; subst. rewrite json_normalize_records.
      destruct records; [reflexivity|]. destruct (first_missing json_flags); reflexivity.
    + pose proof (git_log_parse_error _ _ _ Hparse) as ->.
      rewrite git_log_parse_records in Hparse.
      destruct (git_log_records _ _) as [records|e]; [discriminate|reflexivity].
  - unfold git_log. fold ALLOWED_FLAGS. rewrite check_flags_spec.
    destruct (unrecognized json_flags) eqn:E; [|reflexivity].
    apply unrecognized_nil in E. congruence.
Qed.

(** X12. A run of log mode ends in one of five ways and no other. A filter
    with an unknown character: diagnostics on standard error and exit
    status -2, no subprocess. Otherwise the one fixed command is run. When
    [getoutput] raises, the [except] branch prints the message of the
    exception and the run ends in [UnboundLocalError], the variable
    [output] never having been bound. When it returns, either the parser
    raises [IndexError], or a key of the table is missing from the first
    record and [KeyError] names it, or the table is written to [log.csv]
    and the run returns. No other exception leaves, nothing else is
    printed, and nothing is written before the run is sure to return. *)
Theorem git_log_outcomes (w : world) (args : list string) (json_flags : string) :
  let run := git_log w args json_flags in
  (recognized json_flags = false /\
   run = (map (fun c => StderrWrite (flag_error "Unrecognized flag" c))
              (unrecognized json_flags), Exit (-2))) \/
  (recognized json_flags = true /\
   ((exists message,
       getoutput w GIT_LOG_COMMAND = Raised message /\
       run = ([GetOutput GIT_LOG_COMMAND; Print message], Raise UnboundLocalError)) \/
    (exists output,
       getoutput w GIT_LOG_COMMAND = Output output /\
       (run = ([GetOutput GIT_LOG_COMMAND], Raise IndexError) \/
        (exists key,
           In key ("files" :: REQUIRED_META) /\ first_missing json_flags = Some key /\
           run = ([GetOutput GIT_LOG_COMMAND], Raise (KeyError key))) \/
        (exists df,
           run = ([GetOutput GIT_LOG_COMMAND; ToCsv "log.csv" df], Return tt)))))).
Proof.
  cbv zeta. rewrite git_log_cases.
  destruct (recognized json_flags); [right|left; split; reflexivity].
  split; [reflexivity|].
  destruct (getoutput w GIT_LOG_COMMAND) as [output|message]; [right|left; eauto].
  exists output. split; [reflexivity|]. cbv zeta.
  destruct (git_log_records _ _) as [records|e]; [|left; reflexivity].
  right. destruct records as [|record records]; [right; eexists; reflexivity|].
  destruct (first_missing json_flags) as [key|] eqn:E; [left|right; eexists; reflexivity].
  exists key. split; [eapply first_missing_key, E|]. split; reflexivity.
Qed.

(** X13. What [getoutput] hands back has lost its final newline. On such a
    text, when the last commit of the log changes no file, its record ends
    with the last line, the parser reads past the end and the run raises
    [IndexError] without writing the table; when the last commit has a
    numstat section, every block is parsed. *)
Theorem git_log_stripped_output (w : world) (args : list string) (json_flags : string)
    (blocks : list block) (b : block) :
  recognized json_flags = true ->
  forallb well_formed_block (blocks ++ [b]) = true ->
  forallb newline_free (flat_map block_lines (blocks ++ [b])) = true ->
  getoutput w GIT_LOG_COMMAND =
    Output (Str.join NEWLINE (flat_map block_lines (blocks ++ [b]))) ->
  match b_numstat b with
  | None => git_log w args json_flags = ([GetOutput GIT_LOG_COMMAND], Raise IndexError)
  | Some _ =>
      git_log_parse json_flags
        (Str.split Str.newline (Str.join NEWLINE (flat_map block_lines (blocks ++ [b])))) =
      Ok (map (block_commit json_flags) (blocks ++ [b]))
  end.
Proof.
  intros Hrec Hwf Hfree Hout.
  assert (Str.split Str.newline (Str.join NEWLINE (flat_map block_lines (blocks ++ [b]))) =
          flat_map block_lines (blocks ++ [b])) as Hlines.
  { apply split_join; [|assumption].
    rewrite flat_map_app. cbn [flat_map]. unfold block_lines at 2.
    destruct (flat_map block_lines blocks); discriminate. }
  pose proof (git_log_parse_stripped json_flags blocks b Hwf) as Hparse.
  destruct (b_numstat b) as [numstat|].
  - rewrite Hlines. exact Hparse.
  - rewrite (git_log_run _ _ _ Hrec), Hout, Hlines, Hparse. reflexivity.
Qed.

Lemma git_log_stripped_output_witness :
  git_log stripped_world ["log"] "" = ([GetOutput GIT_LOG_COMMAND], Raise IndexError).
Proof.
  apply (git_log_stripped_output stripped_world ["log"] "" [change_block] merge_block);
    reflexivity.
Defined.

(** ** Runs of the entry point *)

Lemma git_log_ignores_args w args args' json_flags :
  git_log w args json_flags = git_log w args' json_flags.
Proof. reflexivity. Qed.

Lemma git_log_shapes w args json_flags :
  git_log w args json_flags =
    (map (fun c => StderrWrite (flag_error "Unrecognized flag" c)) (unrecognized json_flags),
     Exit (-2)) \/
  (exists message,
     getoutput w GIT_LOG_COMMAND = Raised message /\
     git_log w args json_flags =
       ([GetOutput GIT_LOG_COMMAND; Print message], Raise UnboundLocalError)) \/
  (exists e, git_log w args json_flags = ([GetOutput GIT_LOG_COMMAND], Raise e)) \/
  (exists df,
     git_log w args json_flags = ([GetOutput GIT_LOG_COMMAND; ToCsv "log.csv" df], Return tt)).
Proof.
  rewrite git_log_cases. destruct (recognized json_flags); [right|left; reflexivity].
  destruct (getoutput w GIT_LOG_COMMAND) as [output|message]; [right|left; eauto].
  cbv zeta. destruct (git_log_records _ _) as [[|record records]|e]; eauto.
  destruct (first_missing json_flags); eauto.
Qed.

Lemma main_shapes w argv : main_shape w (main w argv).
Proof.
  rewrite main_cases. destruct (asks_for_help argv); [constructor|]. cbv zeta.
  assert (forall args json_flags, main_shape w (git_log w args json_flags)) as Hlog.
  { intros args json_flags.
    destruct (git_log_shapes w args json_flags)
      as [-> | [(message & Hraised & ->) | [[e ->] | [df ->]]]];
      constructor; assumption. }
  destruct (command_word (tail argv)) as [arg|]; [|apply Hlog].
  destruct (String.eqb arg "log"); [apply Hlog|].
  destruct (String.eqb arg "shortlog"); [|constructor].
  match goal with
  | |- main_shape _ (git_shortlog ?w ?a ?f) =>
      destruct (git_shortlog_raises w a f) as [e [-> | ->]]; constructor
  end.
Qed.

Lemma flag_error_not_missing flags :
  ~ In (StderrWrite MISSING_COMMAND)
       (map (fun c => StderrWrite (flag_error "Unrecognized flag" c)) flags).
Proof.
  intros H. apply in_map_iff in H as (x & H & _). inversion H.
Qed.

Lemma stderr_only flags (f : ascii -> string) :
  List.filter is_subprocess (map (fun c => StderrWrite (f c)) flags) = [] /\
  (forall text, ~ In (Print text) (map (fun c => StderrWrite (f c)) flags)) /\
  (forall file df, ~ In (ToCsv file df) (map (fun c => StderrWrite (f c)) flags)) /\
  (forall argv, ~ In (CheckOutput argv) (map (fun c => StderrWrite (f c)) flags)).
Proof.
  repeat split.
  - induction flags; cbn; auto.
  - intros text H. apply in_map_iff in H as (x & H & _). discriminate.
  - intros file df H. apply in_map_iff in H as (x & H & _). discriminate.
  - intros argv H. apply in_map_iff in H as (x & H & _). discriminate.
Qed.

Ltac no_event H :=
  solve [cbn in H;
         repeat (destruct H as [H|H]; [first [discriminate | inversion H; fail]|]);
         exact (False_ind _ H)].

(** X14. What a run of the entry point never does. It never writes the
    message that asks for a git command: the default command makes that
    branch unreachable. It prints in two cases only: the usage text, and
    then it exits with status 0; and, in log mode, the message of an
    exception that [getoutput] raised, and then it ends in
    [UnboundLocalError]. Its exit statuses are 0, -1 and -2. It starts at
    most one subprocess. The only file it writes is [log.csv], and it
    returns normally exactly when it has written it. *)
Theorem main_never (w : world) (argv : list string) :
  let run := main w argv in
  ~ In (StderrWrite MISSING_COMMAND) (fst run) /\
  (forall text,
     In (Print text) (fst run) ->
     run = ([Print USAGE], Exit 0) \/
     (getoutput w GIT_LOG_COMMAND = Raised text /\
      run = ([GetOutput GIT_LOG_COMMAND; Print text], Raise UnboundLocalError))) /\
  (forall status, snd run = Exit status -> In status [0; -1; -2]%Z) /\
  length (List.filter is_subprocess (fst run)) <= 1 /\
  (forall file df, In (ToCsv file df) (fst run) -> file = "log.csv" /\ snd run = Return tt) /\
  (snd run = Return tt -> exists df, fst run = [GetOutput GIT_LOG_COMMAND; ToCsv "log.csv" df]).
Proof.
  cbv zeta.
  destruct (main_shapes w argv) as [| |flags|message Hraised|e|df|e|a e]; cbn [fst snd];
    (split;
     [intros H; try no_event H
     |split;
      [intros text H; try no_event H
      |split;
       [intros status H; try discriminate; try (inversion H; cbn; tauto)
       |split;
        [try (cbn; lia)
        |split; [intros file df' H; try no_event H|intros H; try discriminate]]]]]).
  - left. reflexivity.
  - apply (flag_error_not_missing flags), H.
  - destruct (stderr_only flags (flag_error "Unrecognized flag")) as (_ & H2 & _).
    destruct (H2 _ H).
  - destruct (stderr_only flags (flag_error "Unrecognized flag")) as (-> & _). cbn. lia.
  - destruct (stderr_only flags (flag_error "Unrecognized flag")) as (_ & _ & H3 & _).
    destruct (H3 _ _ H).
  - destruct H as [H|[H|[]]]; [discriminate|]. inversion H; subst.
    right. split; [assumption|reflexivity].
  - destruct H as [H|[H|[]]]; [discriminate|]. inversion H. split; reflexivity.
  - eauto.
Qed.

(** X15. The dispatch of the entry point. [--help] in second place prints
    the usage text and exits with status 0, whatever follows. Otherwise the
    first argument without a leading dash and without an equal sign is the
    command: [log], or no such argument at all, runs log mode; [shortlog]
    runs shortlog mode; any other word is refused with status -1 before
    anything else happens. Both modes get the arguments without the
    [--json=] ones and without the first of what is left. *)
Theorem main_dispatch_spec (w : world) (argv : list string) :
  let args := tail (remove_elements argv (inl "--json=")) in
  let json_flags := find_json_flags (tail argv) "" in
  (asks_for_help argv = true -> main w argv = ([Print USAGE], Exit 0)) /\
  (asks_for_help argv = false ->
   (command_word (tail argv) = None \/ command_word (tail argv) = Some "log" ->
    main w argv = git_log w args json_flags) /\
   (command_word (tail argv) = Some "shortlog" ->
    main w argv = git_shortlog w args json_flags) /\
   (forall arg,
      command_word (tail argv) = Some arg -> arg <> "log" -> arg <> "shortlog" ->
      main w argv = ([StderrWrite UNSUPPORTED_COMMAND], Exit (-1)))).
Proof.
  cbv zeta. rewrite main_cases. split; [intros ->; reflexivity|].
  intros ->. cbv zeta. split; [|split].
  - intros [-> | ->]; reflexivity.
  - intros ->. reflexivity.
  - intros arg -> Hlog Hshort.
    apply String.eqb_neq in Hlog, Hshort. rewrite Hlog, Hshort. reflexivity.
Qed.

Lemma main_dispatch_spec_witness :
  main empty_world ["gitjson"; "--no-pager"; "status"; "log"] =
    ([StderrWrite UNSUPPORTED_COMMAND], Exit (-1)).
Proof.
  apply (proj2 (proj2 (proj2 (main_dispatch_spec empty_world
                                ["gitjson"; "--no-pager"; "status"; "log"]) eq_refl))
           "status");
    [reflexivity|discriminate|discriminate].
Defined.

(** X16. In log mode the command line counts only through its [--json=]
    arguments: two command lines that both lead to log mode and carry the
    same filter give the same run, whatever else they hold. *)
Theorem main_log_ignores_arguments (w : world) (argv argv' : list string) :
  asks_for_help argv = false ->
  asks_for_help argv' = false ->
  log_mode argv = true ->
  log_mode argv' = true ->
  find_json_flags (tail argv) "" = find_json_flags (tail argv') "" ->
  main w argv = main w argv'.
Proof.
  intros Hhelp Hhelp' Hmode Hmode' Hflags.
  rewrite !main_cases, Hhelp, Hhelp'. cbv zeta. rewrite <- Hflags.
  unfold log_mode in Hmode, Hmode'.
  destruct (command_word (tail argv)) as [arg|];
    destruct (command_word (tail argv')) as [arg'|];
    rewrite ?Hmode, ?Hmode'; apply git_log_ignores_args.
Qed.

Lemma main_log_ignores_arguments_witness :
  main two_commit_world ["gitjson"; "--author=alice"; "log"; "--json=ah"; "-n"; "5"] =
  main two_commit_world ["gitjson"; "--json=ah"].
Proof.
  apply main_log_ignores_arguments; reflexivity.
Defined.

Lemma git_log_no_check_output w args json_flags argv :
  ~ In (CheckOutput argv) (fst (git_log w args json_flags)).
Proof.
  destruct (git_log_shapes w args json_flags)
    as [-> | [(message & _ & ->) | [[e ->] | [df ->]]]]; cbn [fst].
  - apply stderr_only.
  - intros [H|[H|[]]]; discriminate.
  - intros [H|[]]. discriminate.
  - intros [H|[H|[]]]; discriminate.
Qed.

Lemma in_tail {A} (x : A) l : In x (tail l) -> In x l.
Proof. destruct l; cbn; auto. Qed.

Lemma remove_elements_json arg argv :
  In arg (remove_elements argv (inl "--json=")) -> is_json_flag arg = false.
Proof.
  unfold remove_elements. rewrite List.filter_In. intros [_ H].
  cbn [existsb] in H. rewrite orb_false_r in H. apply negb_true_iff, H.
Qed.

(** X17. The one place where the entry point starts [git] with caller
    arguments is shortlog mode, and what it passes is [git] followed by the
    command line without its [--json=] arguments and without the first of
    what is left; no argument that starts with [--json=] ever reaches git.
    When the program name itself is kept, these are the arguments after it,
    filtered. *)
Theorem main_shortlog_argv (w : world) (argv a : list string) :
  In (CheckOutput a) (fst (main w argv)) ->
  command_word (tail argv) = Some "shortlog" /\
  a = "git" :: tail (remove_elements argv (inl "--json=")) /\
  (forall arg, In arg a -> is_json_flag arg = false) /\
  (forall program rest,
     argv = program :: rest -> is_json_flag program = false ->
     a = "git" :: remove_elements rest (inl "--json=")).
Proof.
  rewrite main_cases. destruct (asks_for_help argv).
  { intros [H|[]]. discriminate. }
  cbv zeta.
  destruct (command_word (tail argv)) as [arg|];
    [|intros H; destruct (git_log_no_check_output _ _ _ _ H)].
  destruct (String.eqb arg "log"); [intros H; destruct (git_log_no_check_output _ _ _ _ H)|].
  destruct (String.eqb_spec arg "shortlog") as [->|Hne]; [|intros [H|[]]; discriminate].
  intros H.
  assert (a = "git" :: tail (remove_elements argv (inl "--json="))) as ->.
  { match type of H with
    | In _ (fst (git_shortlog ?w ?args ?f)) =>
        destruct (git_shortlog_raises w args f) as [e [E | E]]; rewrite E in H
    end.
    - destruct H.
    - destruct H as [H|[]]. inversion H. reflexivity. }
  split; [reflexivity|]. split; [reflexivity|]. split.
  - intros arg [<-|Hin]; [reflexivity|].
    apply in_tail in Hin. eapply remove_elements_json, Hin.
  - intros program rest -> Hprogram. unfold remove_elements. cbn [List.filter existsb].
    unfold is_json_flag in Hprogram. rewrite Hprogram. reflexivity.
Qed.

Lemma main_shortlog_argv_witness :
  command_word (tail ["gitjson"; "shortlog"; "--json=x"; "-sn"]) = Some "shortlog" /\
  ["git"; "shortlog"; "-sn"] =
    "git" :: tail (remove_elements ["gitjson"; "shortlog"; "--json=x"; "-sn"] (inl "--json=")) /\
  (forall arg, In arg ["git"; "shortlog"; "-sn"] -> is_json_flag arg = false) /\
  (forall program rest,
     ["gitjson"; "shortlog"; "--json=x"; "-sn"] = program :: rest ->
     is_json_flag program = false ->
     ["git"; "shortlog"; "-sn"] = "git" :: remove_elements rest (inl "--json=")).
Proof.
  apply (main_shortlog_argv failing_world ["gitjson"; "shortlog"; "--json=x"; "-sn"]).
  left. reflexivity.
Defined.

(** ** The composed argument list *)



(** ** The lines of a summary *)

Lemma int_error s e : Str.int s = Err e -> e = ValueError.
Proof.
  unfold Str.int.
  destruct (match Str.rstrip_with Str.isspace_int (Str.lstrip_with Str.isspace_int s) with
            | EmptyString => _
            | String _ _ => _
            end); [|congruence].
  destruct (Nat.leb _ _); congruence.
Qed.

(** A literal with more digits than the limit is refused, whatever its
    digits are. *)
Lemma int_too_long s :
  Str.int_max_str_digits <
    Str.digit_count (Str.rstrip_with Str.isspace_int (Str.lstrip_with Str.isspace_int s)) ->
  Str.int s = Err ValueError.
Proof.
  intros Hlong. unfold Str.int.
  destruct (match Str.rstrip_with Str.isspace_int (Str.lstrip_with Str.isspace_int s) with
            | EmptyString => _
            | String _ _ => _
            end); [|reflexivity].
  apply Nat.leb_gt in Hlong. rewrite Hlong. reflexivity.
Qed.

Lemma split_cons_inv sep : forall s f0 rest,
  Str.split sep s = f0 :: rest ->
  rest <> [] ->
  exists label,
    s = f0 +:+ String sep label /\ Str.has_char sep f0 = false /\ Str.split sep label = rest.
Proof.
  induction s as [|c s IH]; intros f0 rest Hsplit Hrest.
  - cbn in Hsplit. inversion Hsplit; subst. contradiction.
  - cbn [Str.split] in Hsplit. destruct (Ascii.eqb_spec c sep) as [->|Hne].
    + inversion Hsplit; subst. exists s. repeat split.
    + pose proof (split_not_nil sep s) as Hnil.
      destruct (Str.split sep s) as [|piece pieces] eqn:E; [contradiction|].
      inversion Hsplit; subst.
      destruct (IH piece rest eq_refl Hrest) as (label & -> & Hfree & Hlabel).
      exists label. rewrite append_cons. split; [reflexivity|]. split; [|assumption].
      unfold Str.has_char in *. cbn [Str.chars existsb]. rewrite Hfree, orb_false_r.
      apply Ascii.eqb_neq. congruence.
Qed.

Lemma shortlog_line_error email_flag line e :
  shortlog_line email_flag line = Err e ->
  exists f0 f1 rest,
    Str.split Str.tab (Str.strip line) = f0 :: f1 :: rest /\ Str.int f0 = Err ValueError /\
    e = ValueError.
Proof.
  unfold shortlog_line.
  destruct (Str.split Str.tab (Str.strip line)) as [|f0 [|f1 rest]]; try discriminate.
  destruct (Str.int f0) as [n|e'] eqn:Eint; cbn [mbind result_bind].
  - destruct email_flag; [|discriminate].
    destruct (Str.split "<" _) as [|a [|b [|c d]]]; discriminate.
  - intros H. inversion H; subst. pose proof (int_error _ _ Eint) as ->. eauto 6.
Qed.

(** X19. The only exception a summary line can raise is the [ValueError]
    of [int], and it is raised exactly when the trimmed line has a tab and
    [int] refuses the text before the first tab: text that is not an integer
    literal, or a literal with more digits than the limit of 4300. The
    e-mail flag and the rest of the line play no part. One such line
    anywhere makes the whole loop raise [ValueError]: no entries are
    returned. *)
Theorem shortlog_line_errors (email_flag : bool) (line : string) (e : exn) :
  (shortlog_line email_flag line = Err e <->
   e = ValueError /\
   exists count_text label,
     Str.strip line = count_text +:+ String Str.tab label /\
     Str.has_char Str.tab count_text = false /\
     Str.int count_text = Err ValueError) /\
  (shortlog_line email_flag line = Err e ->
   (forall email_flag', shortlog_line email_flag' line = Err ValueError) /\
   (forall before after author_entries,
      shortlog_entries email_flag (before ++ line :: after) author_entries =
      Err ValueError)).
Proof.
  split; [split|].
  - intros Herr.
    destruct (shortlog_line_error _ _ _ Herr) as (f0 & f1 & rest & Hsplit & Hint & ->).
    split; [reflexivity|].
    destruct (split_cons_inv _ _ _ _ Hsplit) as (label & Hline & Hfree & _); [discriminate|].
    eauto.
  - intros (-> & count_text & label & Hline & Hfree & Hint).
    unfold shortlog_line. rewrite Hline, (split_app_sep _ _ _ Hfree).
    pose proof (split_not_nil Str.tab label) as Hnil.
    destruct (Str.split Str.tab label) as [|piece pieces]; [contradiction|].
    rewrite Hint. reflexivity.
  - intros Herr.
    destruct (shortlog_line_error _ _ _ Herr) as (f0 & f1 & rest & Hsplit & Hint & ->).
    split.
    + intros email_flag'. unfold shortlog_line. rewrite Hsplit, Hint. reflexivity.
    + intros before. induction before as [|l before IH]; intros after author_entries.
      * cbn [app shortlog_entries]. rewrite Herr. reflexivity.
      * cbn [app shortlog_entries].
        destruct (shortlog_line email_flag l) as [entry|e'] eqn:El.
        -- cbn [mbind result_bind]. apply IH.
        -- destruct (shortlog_line_error _ _ _ El) as (_ & _ & _ & _ & _ & ->). reflexivity.
Qed.

Lemma shortlog_line_errors_witness :
  shortlog_line true ("x7" +:+ String Str.tab "Alice") = Err ValueError /\
  (forall email_flag',
     shortlog_line email_flag' ("x7" +:+ String Str.tab "Alice") = Err ValueError) /\
  (forall before after author_entries,
     shortlog_entries true (before ++ ("x7" +:+ String Str.tab "Alice") :: after)
       author_entries = Err ValueError).
Proof.
  assert (shortlog_line true ("x7" +:+ String Str.tab "Alice") = Err ValueError) as Herr.
  { apply (proj1 (shortlog_line_errors true ("x7" +:+ String Str.tab "Alice") ValueError)).
    split; [reflexivity|]. exists "x7", "Alice". repeat split. }
  split; [exact Herr|].
  apply (proj2 (shortlog_line_errors true ("x7" +:+ String Str.tab "Alice") ValueError)), Herr.
Defined.

Lemma has_char_app c a b : Str.has_char c (a +:+ b) = Str.has_char c a || Str.has_char c b.
Proof.
  unfold Str.has_char. induction a as [|x a IH]; [reflexivity|].
  rewrite append_cons. cbn [Str.chars existsb]. rewrite IH, orb_assoc. reflexivity.
Qed.

Lemma lstrip_with_has_char ws c s :
  Str.has_char c s = false -> Str.has_char c (Str.lstrip_with ws s) = false.
Proof.
  unfold Str.has_char. induction s as [|x s IH]; [reflexivity|].
  cbn [Str.lstrip_with]. destruct (ws x); [|trivial].
  cbn [Str.chars existsb]. intros H. apply orb_false_elim in H as [_ H]. apply IH, H.
Qed.

Lemma rstrip_with_has_char ws c s :
  Str.has_char c s = false -> Str.has_char c (Str.rstrip_with ws s) = false.
Proof.
  unfold Str.has_char. induction s as [|x s IH]; [reflexivity|].
  cbn [Str.rstrip_with Str.chars existsb]. intros H. apply orb_false_elim in H as [Hx H].
  specialize (IH H). destruct (Str.rstrip_with ws s) as [|y r].
  - destruct (ws x); [reflexivity|]. cbn. rewrite Hx. reflexivity.
  - cbn [Str.chars existsb] in *. rewrite Hx. exact IH.
Qed.

Lemma strip_has_char c s : Str.has_char c s = false -> Str.has_char c (Str.strip s) = false.
Proof. intros H. apply rstrip_with_has_char, lstrip_with_has_char, H. Qed.

Lemma drop_last_has_char c s :
  Str.has_char c s = false -> Str.has_char c (Str.drop_last s) = false.
Proof.
  unfold Str.has_char. induction s as [|x s IH]; [reflexivity|].
  cbn [Str.drop_last Str.chars existsb]. intros H. apply orb_false_elim in H as [Hx H].
  destruct s as [|y s]; [reflexivity|].
  cbn [Str.chars existsb]. rewrite Hx. apply IH, H.
Qed.

Lemma split_pieces sep c : forall s piece,
  In piece (Str.split sep s) ->
  Str.has_char sep piece = false /\
  (Str.has_char c s = false -> Str.has_char c piece = false).
Proof.
  unfold Str.has_char.
  induction s as [|x s IH]; intros piece Hin.
  - destruct Hin as [<-|[]]. split; auto.
  - cbn [Str.split] in Hin. cbn [Str.chars existsb].
    destruct (Ascii.eqb_spec x sep) as [->|Hne].
    + destruct Hin as [<-|Hin]; [split; reflexivity|].
      destruct (IH _ Hin) as [H1 H2]. split; [assumption|].
      intros H. apply orb_false_elim in H as [_ H]. apply H2, H.
    + pose proof (split_not_nil sep s) as Hnil.
      destruct (Str.split sep s) as [|p ps] eqn:E; [contradiction|].
      destruct Hin as [<-|Hin].
      * destruct (IH p (or_introl eq_refl)) as [H1 H2]. cbn [Str.chars existsb]. split.
        -- rewrite H1, orb_false_r. apply Ascii.eqb_neq. congruence.
        -- intros H. apply orb_false_elim in H as [Hx H]. rewrite Hx. apply H2, H.
      * destruct (IH piece (or_intror Hin)) as [H1 H2]. split; [assumption|].
        intros H. apply orb_false_elim in H as [_ H]. apply H2, H.
Qed.

Lemma join_has_char c sep pieces :
  Str.has_char c sep = false ->
  Forall (fun piece => Str.has_char c piece = false) pieces ->
  Str.has_char c (Str.join sep pieces) = false.
Proof.
  intros Hsep Hall. induction Hall as [|piece pieces Hpiece Hall IH]; [reflexivity|].
  destruct pieces as [|piece' pieces]; [exact Hpiece|].
  change (Str.join sep (piece :: piece' :: pieces))
    with (piece +:+ sep +:+ Str.join sep (piece' :: pieces)).
  rewrite !has_char_app, Hpiece, Hsep, IH. reflexivity.
Qed.

(** X20. What an entry of the summary can hold. The name never contains a
    tab: the tabs of the label are replaced by spaces. Without the e-mail
    flag the entry has no e-mail. With it, neither the name nor the e-mail
    contains a tab or an opening angle bracket. *)
Theorem shortlog_line_fields (email_flag : bool) (line : string) (entry : author_entry) :
  shortlog_line email_flag line = Ok (Some entry) ->
  Str.has_char Str.tab (name entry) = false /\
  (if email_flag
   then exists address,
          email entry = Some address /\
          Str.has_char "<" (name entry) = false /\
          Str.has_char "<" address = false /\
          Str.has_char Str.tab address = false
   else email entry = None).
Proof.
  unfold shortlog_line.
  destruct (Str.split Str.tab (Str.strip line)) as [|f0 [|f1 rest]] eqn:Hsplit;
    try discriminate.
  destruct (Str.int f0) as [n|e]; [|discriminate]. cbn [mbind result_bind].
  assert (Str.has_char Str.tab (Str.join " " (f1 :: rest)) = false) as Hauthor.
  { apply join_has_char; [reflexivity|].
    apply List.Forall_forall. intros piece Hin.
    destruct (split_pieces Str.tab Str.tab (Str.strip line) piece) as [H _];
      [rewrite Hsplit; right; exact Hin|exact H]. }
  destruct email_flag.
  - destruct (Str.split "<" (Str.join " " (f1 :: rest))) as [|first [|second [|third more]]]
      eqn:Hparts; try discriminate.
    intros H. inversion H; subst. cbn [name email].
    destruct (split_pieces "<" Str.tab (Str.join " " (f1 :: rest)) first) as [H1 H2];
      [rewrite Hparts; left; reflexivity|].
    destruct (split_pieces "<" Str.tab (Str.join " " (f1 :: rest)) second) as [H3 H4];
      [rewrite Hparts; right; left; reflexivity|].
    split; [apply strip_has_char, H2, Hauthor|].
    eexists. split; [reflexivity|]. split; [apply strip_has_char, H1|].
    split; apply drop_last_has_char, strip_has_char; auto.
  - intros H. inversion H; subst. cbn [name email]. split; [exact Hauthor|reflexivity].
Qed.

Lemma shortlog_line_fields_witness :
  Str.has_char Str.tab "Alice" = false /\
  exists address,
    Some "a@example.com" = Some address /\
    Str.has_char "<" "Alice" = false /\
    Str.has_char "<" address = false /\
    Str.has_char Str.tab address = false.
Proof.
  apply (shortlog_line_fields true alice_line (AuthorEntry "Alice" (Some "a@example.com") 5)).
  reflexivity.
Defined.

Lemma git_log_parse_shape_witness :
  (forall c c' key,
     In c (map (block_commit "af") [merge_block; change_block]) ->
     In c' (map (block_commit "af") [merge_block; change_block]) ->
     (is_Some (c !! key) <-> is_Some (c' !! key))) /\
  (forall c v,
     In c (map (block_commit "af") [merge_block; change_block]) ->
     c !! "parents" = Some v ->
     exists parents, v = VList parents /\ parents <> []) /\
  (forall c v,
     In c (map (block_commit "af") [merge_block; change_block]) ->
     c !! "files" = Some v -> exists files, v = VFiles files).
Proof.
  apply (git_log_parse_shape "af" (stream_lines [merge_block; change_block])).
  apply git_log_parse_stream. reflexivity.
Defined.

Lemma record_rows_length records :
  length (record_rows records) = list_sum (map (fun record => length (snd record)) records) /\
  Forall (fun row => length row = 7) (record_rows records).
Proof.
  unfold record_rows. induction records as [|[h files] records [IH1 IH2]].
  - split; [reflexivity|constructor].
  - cbn [flat_map map list_sum fst snd]. rewrite length_app, IH1. split.
    + unfold commit_rows. rewrite length_map. reflexivity.
    + apply Forall_app. split; [|exact IH2].
      unfold commit_rows. apply Forall_map, Forall_forall. intros f _. reflexivity.
Qed.

(** X21. The table of a run that writes one. There is a list of parsed
    records of which the parser returned the dictionaries, and the table has
    one row per file entry of these records, seven cells each; a record
    without file entries adds nothing, so the number of data rows is the sum
    of the numbers of file entries. *)
Theorem git_log_table_rows (w : world) (args : list string) (json_flags : string)
    (df : DataFrame) :
  git_log w args json_flags = ([GetOutput GIT_LOG_COMMAND; ToCsv "log.csv" df], Return tt) ->
  exists output records,
    getoutput w GIT_LOG_COMMAND = Output output /\
    git_log_parse json_flags (Str.split Str.newline output) =
      Ok (map (record_commit json_flags) records) /\
    rows df = flat_map (fun record => commit_rows (fst record) (snd record)) records /\
    length (rows df) = list_sum (map (fun record => length (snd record)) records) /\
    Forall (fun row => length row = 7) (rows df).
Proof.
  rewrite git_log_cases.
  destruct (recognized json_flags); [|discriminate].
  destruct (getoutput w GIT_LOG_COMMAND) as [output|message]; [|discriminate].
  intros H. exists output. revert H.
  rewrite git_log_parse_records. cbv zeta.
  destruct (git_log_records _ _) as [records|e]; [|discriminate].
  assert (rows (records_frame records) = record_rows records) as Hrows
    by (destruct records; reflexivity).
  destruct (record_rows_length records) as [Hlen Hcells].
  destruct records as [|record records].
  - intros H. assert (df = records_frame []) as -> by (inversion H; reflexivity).
    exists []. repeat split. constructor.
  - destruct (first_missing json_flags); [discriminate|].
    intros H.
    assert (df = records_frame (record :: records)) as -> by (inversion H; reflexivity).
    exists (record :: records). rewrite Hrows. repeat split; assumption.
Qed.

Lemma git_log_table_rows_witness :
  exists output records,
    getoutput two_commit_world GIT_LOG_COMMAND = Output output /\
    git_log_parse "" (Str.split Str.newline output) =
      Ok (map (record_commit "") records) /\
    rows (records_frame [(block_header merge_block, block_files merge_block);
                         (block_header change_block, block_files change_block)]) =
      flat_map (fun record => commit_rows (fst record) (snd record)) records /\
    length (rows (records_frame [(block_header merge_block, block_files merge_block);
                                 (block_header change_block, block_files change_block)])) =
      list_sum (map (fun record => length (snd record)) records) /\
    Forall (fun row => length row = 7)
           (rows (records_frame [(block_header merge_block, block_files merge_block);
                                 (block_header change_block, block_files change_block)])).
Proof.
  apply (git_log_table_rows two_commit_world ["log"] "").
  rewrite git_log_cases. reflexivity.
Defined.

(** A log that is not valid UTF-8: [getoutput] raises, the message is
    printed and the run ends when [output] is read. *)
Example git_log_undecodable :
  git_log undecodable_world ["log"] "" =
    ([GetOutput GIT_LOG_COMMAND; Print DECODE_MESSAGE], Raise UnboundLocalError) /\
  main undecodable_world ["gitjson"; "log"; "--json=ah"] =
    ([GetOutput GIT_LOG_COMMAND; Print DECODE_MESSAGE], Raise UnboundLocalError).
Proof. split; reflexivity. Qed.
